(** * kitty-theme-selector: the two pickers, embedded and verified

    Shallow embedding of [ssh_host_selector.py] and [theme_selector.py].

    Text is modelled by [string] (characters are [ascii]); the Python
    [str] methods used by the two programs are written out below for
    ASCII text, where [str.lower] only touches [A-Z] and the white space
    of [str.strip] / [str.split] is TAB, LF, VT, FF, CR, FS, GS, RS, US
    and SPACE.  Exceptions are values of a small error monad; the
    operating system (files, environment, subprocesses) is an explicit
    argument of every function that consults it. *)

From Stdlib Require Import List String Ascii Bool Arith PeanoNat NArith ZArith Lia.
From Stdlib Require Import DecimalString.
From Stdlib Require Import Sorting.Sorted Sorting.Permutation.
Import ListNotations.
Local Open Scope string_scope.
Local Open Scope nat_scope.
Local Open Scope list_scope.

(* ================================================================== *)
(** ** Exceptions *)
(* ================================================================== *)

Inductive exn : Type :=
| IndexError
| OSError
| FileNotFoundError
| PermissionError
| TimeoutExpired
| UnicodeDecodeError.

Inductive result (A : Type) : Type :=
| Ok (a : A)
| Raise (e : exn).
Arguments Ok {A} a.
Arguments Raise {A} e.

Definition bind {A B : Type} (m : result A) (k : A -> result B) : result B :=
  match m with
  | Ok a => k a
  | Raise e => Raise e
  end.

Notation "x <- m ;; k" := (bind m (fun x => k))
  (at level 61, m at next level, right associativity).

(** [xs[i]] on a Python list. *)
Definition getitem {A : Type} (xs : list A) (i : nat) : result A :=
  match nth_error xs i with
  | Some x => Ok x
  | None => Raise IndexError
  end.

(* ================================================================== *)
(** ** Python [str] methods on ASCII text *)
(* ================================================================== *)

Module PyStr.

Definition code (c : ascii) : nat := nat_of_ascii c.

(** [str.isspace] on one character. *)
Definition isspace (c : ascii) : bool :=
  let n := code c in
  ((9 <=? n) && (n <=? 13)) || ((28 <=? n) && (n <=? 32)).

Definition lower_char (c : ascii) : ascii :=
  let n := code c in
  if (65 <=? n) && (n <=? 90) then ascii_of_nat (n + 32) else c.

(** [s.lower()] *)
Fixpoint lower (s : string) : string :=
  match s with
  | EmptyString => EmptyString
  | String c s' => String (lower_char c) (lower s')
  end.

Fixpoint lstrip (s : string) : string :=
  match s with
  | EmptyString => EmptyString
  | String c s' => if isspace c then lstrip s' else s
  end.

Fixpoint rstrip (s : string) : string :=
  match s with
  | EmptyString => EmptyString
  | String c s' =>
      match rstrip s' with
      | EmptyString => if isspace c then EmptyString else String c EmptyString
      | r => String c r
      end
  end.

(** [s.strip()] *)
Definition strip (s : string) : string := rstrip (lstrip s).

(** [s.startswith(p)] *)
Definition startswith (s p : string) : bool := String.prefix p s.

(** [q in s] *)
Fixpoint contains (q s : string) : bool :=
  String.prefix q s ||
  match s with
  | EmptyString => false
  | String _ s' => contains q s'
  end.

(** [c in s] for a single character. *)
Fixpoint has_char (c : ascii) (s : string) : bool :=
  match s with
  | EmptyString => false
  | String d s' => Ascii.eqb c d || has_char c s'
  end.

(** Python truthiness of a [str]. *)
Definition nonempty (s : string) : bool :=
  match s with
  | EmptyString => false
  | String _ _ => true
  end.

(** Line boundaries of [str.splitlines] in the ASCII range:
    LF, VT, FF, CR (and CR LF as one), FS, GS, RS. *)
Definition is_linebreak (c : ascii) : bool :=
  let n := code c in
  ((10 <=? n) && (n <=? 13)) || ((28 <=? n) && (n <=? 30)).

(** [s.splitlines()] *)
Fixpoint splitlines (s : string) : list string :=
  match s with
  | EmptyString => []
  | String c s' =>
      if is_linebreak c then
        EmptyString ::
          match s' with
          | String d s'' =>
              if (code c =? 13) && (code d =? 10) then splitlines s''
              else splitlines s'
          | EmptyString => []
          end
      else
        match splitlines s' with
        | [] => [String c EmptyString]
        | l :: ls => String c l :: ls
        end
  end.

(** The first white-space-free word of [s] and what follows it. *)
Fixpoint span_word (s : string) : string * string :=
  match s with
  | EmptyString => (EmptyString, EmptyString)
  | String c s' =>
      if isspace c then (EmptyString, s)
      else let (w, r) := span_word s' in (String c w, r)
  end.

(** [s.split()]: the white-space separated words of [s].  [w] is the
    word being read, kept in reading order. *)
Fixpoint split_from (w : string) (s : string) : list string :=
  match s with
  | EmptyString => if nonempty w then [w] else []
  | String c s' =>
      if isspace c
      then (if nonempty w then [w] else []) ++ split_from EmptyString s'
      else split_from (String.append w (String c EmptyString)) s'
  end.

Definition split (s : string) : list string := split_from EmptyString s.

(** [s.split(None, 1)]: the first word, then the remainder with its
    leading white space removed (if anything is left). *)
Definition split_maxsplit1 (s : string) : list string :=
  match lstrip s with
  | EmptyString => []
  | t =>
      let (w, r) := span_word t in
      match lstrip r with
      | EmptyString => [w]
      | r' => [w; r']
      end
  end.

(** [s.split(sep, 1)] for a one-character separator. *)
Fixpoint split_sep1 (sep : ascii) (s : string) : list string :=
  match s with
  | EmptyString => [EmptyString]
  | String c s' =>
      if Ascii.eqb c sep then [EmptyString; s']
      else match split_sep1 sep s' with
           | h :: t => String c h :: t
           | [] => [String c EmptyString]
           end
  end.

(** [s[1:]] *)
Definition drop1 (s : string) : string :=
  match s with
  | EmptyString => EmptyString
  | String _ s' => s'
  end.

End PyStr.

(* ================================================================== *)
(** ** Python lists: stable sort with a key, membership *)
(* ================================================================== *)

Module PyList.
Section SortByKey.
Context {A K : Type}.
Variable key : A -> K.
Variable leb : K -> K -> bool.

(** Puts [x] in front of the first element whose key is not below
    the key of [x]: elements with equal keys keep their order. *)
Fixpoint insert (x : A) (l : list A) : list A :=
  match l with
  | [] => [x]
  | y :: l' => if leb (key x) (key y) then x :: l else y :: insert x l'
  end.

(** [l.sort(key=key)] / [sorted(l, key=key)]: Python's sort is
    stable; it is modelled by stable insertion sort. *)
Fixpoint sort (l : list A) : list A :=
  match l with
  | [] => []
  | x :: l' => insert x (sort l')
  end.
End SortByKey.

(** [x in seen] for a set of strings. *)
Definition mem (x : string) (seen : list string) : bool :=
  existsb (String.eqb x) seen.

(** The common shape of the two de-duplication loops: keep an element
    when its key is not in [seen], and add the key to [seen]. *)
Fixpoint first_occurrences {A : Type} (key : A -> string)
    (seen : list string) (l : list A) : list A :=
  match l with
  | [] => []
  | x :: l' =>
      if mem (key x) seen then first_occurrences key seen l'
      else x :: first_occurrences key (key x :: seen) l'
  end.
End PyList.

(* ================================================================== *)
(** ** pathlib and the operating system *)
(* ================================================================== *)

(** A [Path] is the list of its components below the root. *)
Definition Path : Type := list string.

(** Outcome of [Path.read_text(encoding="utf-8", errors="replace")]:
    with error replacement decoding cannot fail, so the call either
    returns text or raises [OSError]. *)
Inductive read_outcome : Type :=
| ReadText (text : string)
| ReadOSError.

(** Outcome of [subprocess.run(argv, capture_output=True, timeout=t)]:
    the child ran to its end, or the call raised.  Which exceptions are
    caught is decided by the [except] clauses of each caller. *)
Inductive run_outcome : Type :=
| RunExit (returncode : Z) (stdout stderr : string)
| RunRaised (e : exn).

Abbreviation RunNotFound := (RunRaised FileNotFoundError).
Abbreviation RunTimeout := (RunRaised TimeoutExpired).

(** Outcome of [os.execvp(file, argv)]: the process image is replaced
    and the call never returns, or the call raised. *)
Inductive exec_outcome : Type :=
| ExecReplaced
| ExecRaised (e : exn).

Abbreviation ExecNotFound := (ExecRaised FileNotFoundError).

Record os : Type := {
  environ   : string -> option string;      (* os.environ.get(name) *)
  home      : Path;                         (* Path.home() *)
  resolve   : string -> Path;               (* Path(s).expanduser().resolve() *)
  is_file   : Path -> result bool;          (* Path.is_file(): an answer, or the
                                               OSError that [stat] raised and
                                               pathlib does not swallow *)
  read_text : Path -> read_outcome;
  is_dir    : Path -> bool;                 (* Path.is_dir(), as a plain answer *)
  rglob_conf : Path -> list Path;           (* list(config_dir.rglob("*.conf")) *)
  run       : list string -> run_outcome;
  execvp    : string -> list string -> exec_outcome
}.

(** What a launch attempt did to the outside world, in order. *)
Inductive action : Type :=
| Ran (argv : list string)
| Execed (file : string) (argv : list string).

(** A [notify(message, severity=..., timeout=...)] call. *)
Inductive severity : Type := information | error.
Record notification : Type := {
  message : string;
  level   : severity;
  seconds : nat
}.

(* ================================================================== *)
(** ** ssh_host_selector.py *)
(* ================================================================== *)

Module ssh_host_selector.
Import PyStr.

(** [(display_name, host_alias, theme_or_none)] *)
Definition entry : Type := string * string * option string.
Definition display_label (e : entry) : string := fst (fst e).
Definition target_key (e : entry) : string := snd (fst e).
Definition metadata (e : entry) : option string := snd e.

Definition get_ssh_config_path (w : os) : Path :=
  let path :=
    strip (match environ w "SSH_CONFIG_ENV" with Some v => v | None => "" end) in
  if nonempty path then resolve w path
  else home w ++ [".ssh"; "config"].

(** The local variables of the line loop of [parse_ssh_config]. *)
Record locals : Type := {
  entries       : list entry;
  current_hosts : list string;
  current_user  : option string;
  current_theme : option string
}.

(** [f"{current_user}@{alias}" if current_user else alias] *)
Definition display_of (user : option string) (alias : string) : string :=
  match user with
  | Some u => if nonempty u then String.append u (String.append "@" alias) else alias
  | None => alias
  end.

(** The [for alias in current_hosts] loop. *)
Fixpoint emit (user theme : option string) (hosts : list string)
    (acc : list entry) : list entry :=
  match hosts with
  | [] => acc
  | alias :: hosts' =>
      if nonempty alias && negb (alias =? "*")%string
      then emit user theme hosts' (acc ++ [(display_of user alias, alias, theme)])
      else emit user theme hosts' acc
  end.

(** [if current_hosts: for alias in current_hosts: ...] *)
Definition close_block (st : locals) : list entry :=
  match current_hosts st with
  | [] => entries st
  | hs => emit (current_user st) (current_theme st) hs (entries st)
  end.

(** The comment branch: the optional [# kitty theme: value] directive. *)
Definition comment_line (st : locals) (line : string) : result locals :=
  let rest := strip (drop1 line) in
  let rlower := lower rest in
  if startswith rlower "kitty theme:" || startswith rlower "kitty theme=" then
    let sep := if has_char ":" rest then ":"%char else "="%char in
    v <- getitem (split_sep1 sep rest) 1 ;;
    let value := strip v in
    if nonempty value
    then Ok {| entries := entries st; current_hosts := current_hosts st;
               current_user := current_user st; current_theme := Some value |}
    else Ok st
  else Ok st.

(** One iteration of [for raw_line in text.splitlines()]. *)
Definition parse_line (st : locals) (raw_line : string) : result locals :=
  let line := strip raw_line in
  if startswith (lower line) "host " then
    let entries' := close_block st in
    let parts := split_maxsplit1 line in
    hosts <- (if 1 <? List.length parts
              then p1 <- getitem parts 1 ;; Ok (split p1)
              else Ok []) ;;
    Ok {| entries := entries'; current_hosts := hosts;
          current_user := None; current_theme := None |}
  else if negb (nonempty line) then Ok st
  else if startswith line "#" then comment_line st line
  else
    let key_value := split_maxsplit1 line in
    if 2 <=? List.length key_value then
      k <- getitem key_value 0 ;;
      if (lower k =? "user")%string then
        v <- getitem key_value 1 ;;
        Ok {| entries := entries st; current_hosts := current_hosts st;
              current_user := Some (strip v); current_theme := current_theme st |}
      else Ok st
    else Ok st.

Fixpoint parse_lines (st : locals) (lines : list string) : result locals :=
  match lines with
  | [] => Ok st
  | raw_line :: lines' => st' <- parse_line st raw_line ;; parse_lines st' lines'
  end.

Definition initial : locals :=
  {| entries := []; current_hosts := []; current_user := None; current_theme := None |}.

(** The candidate entries, in the order the blocks declare them
    (the value of [entries] when the de-duplication starts). *)
Definition candidates (text : string) : result (list entry) :=
  st <- parse_lines initial (splitlines text) ;;
  Ok (close_block st).

(** "Dedupe by alias, keep first occurrence". *)
Fixpoint dedupe (seen : list string) (es : list entry) : list entry :=
  match es with
  | [] => []
  | (display, alias, theme) :: es' =>
      if PyList.mem alias seen then dedupe seen es'
      else (display, alias, theme) :: dedupe (alias :: seen) es'
  end.

(** [lambda x: (x[0].lower(), x[1])] *)
Definition sort_key (x : entry) : string * string :=
  (lower (display_label x), target_key x).

(** Order of Python tuples of two strings. *)
Definition key_leb (k1 k2 : string * string) : bool :=
  match String.compare (fst k1) (fst k2) with
  | Lt => true
  | Eq => String.leb (snd k1) (snd k2)
  | Gt => false
  end.

(** Everything after [read_text]. *)
Definition parse_text (text : string) : result (list entry) :=
  es <- candidates text ;;
  Ok (PyList.sort sort_key key_leb (dedupe [] es)).

Definition parse_ssh_config (w : os) (config_path : Path)
    : result (list entry) :=
  is_a_file <- is_file w config_path ;;
  if negb is_a_file then Ok []
  else match read_text w config_path with
       | ReadOSError => Ok []
       | ReadText text => parse_text text
       end.

(** *** SSHHostSelectorApp *)

(** The [ListView] widget: the labels it shows and its highlighted
    index.  Both are owned by the widget; the handlers below reach it
    only through the scheduled [_refresh_list] worker. *)
Record ListView : Type := {
  children : list string;
  index    : option nat
}.

Record App : Type := {
  use_kitten_ssh : bool;
  hosts          : list entry;
  _filtered      : list entry;
  host_list      : ListView;
  search_display : bool;
  status         : string;
  workers        : nat;                (* [_refresh_list] runs scheduled by [run_worker] *)
  notifications  : list notification;  (* oldest first *)
  exited         : bool                (* [self.exit()] has been called *)
}.

(** How a call that may reach [os.execvp] ends: it returns, the process
    image is replaced, or an exception that nothing catches leaves it. *)
Inductive ending (A : Type) : Type :=
| Returned (a : A)
| ImageReplaced
| Raised (e : exn).
Arguments Returned {A} a.
Arguments ImageReplaced {A}.
Arguments Raised {A} e.

Definition launch_prefix : list string :=
  ["kitten"; "@"; "launch"; "--type=tab"; "--cwd"; "current"].

(** [["kitten", "ssh"] + (["--kitten", f"color_scheme={theme}"] if theme) + [host_alias]] *)
Definition kitten_ssh_argv (host_alias : string) (theme : option string) : list string :=
  ["kitten"; "ssh"]
  ++ (match theme with
      | Some t => if nonempty t then ["--kitten"; String.append "color_scheme=" t] else []
      | None => []
      end)
  ++ [host_alias].

(** [try: r = subprocess.run(argv, ...); if r.returncode == 0: return True
     except (FileNotFoundError, subprocess.TimeoutExpired): pass] *)
Definition tab_opened (w : os) (argv : list string) : bool :=
  match run w argv with
  | RunExit rc _ _ => Z.eqb rc 0
  | RunRaised _ => false
  end.

(** The exception of the tab attempt that the [except] clause
    [(FileNotFoundError, subprocess.TimeoutExpired)] lets through. *)
Definition tab_escaped (w : os) (argv : list string) : option exn :=
  match run w argv with
  | RunExit _ _ _ => None
  | RunNotFound => None
  | RunTimeout => None
  | RunRaised e => Some e
  end.


(** [_connect]: the attempts made, in order, and how the call ends. *)
Definition _connect (w : os) (use_kitten : bool) (host_alias : string)
    (theme : option string) : list action * ending bool :=
  if use_kitten then
    let ssh_argv := kitten_ssh_argv host_alias theme in
    let tab := launch_prefix ++ ssh_argv in
    if tab_opened w tab then ([Ran tab], Returned true)
    else
      match tab_escaped w tab with
      | Some e => ([Ran tab], Raised e)
      | None =>
          match execvp w "kitten" ssh_argv with
          | ExecReplaced => ([Ran tab; Execed "kitten" ssh_argv], ImageReplaced)
          | ExecNotFound =>
              match execvp w "ssh" ["ssh"; host_alias] with
              | ExecReplaced =>
                  ([Ran tab; Execed "kitten" ssh_argv; Execed "ssh" ["ssh"; host_alias]],
                   ImageReplaced)
              | ExecNotFound =>
                  ([Ran tab; Execed "kitten" ssh_argv; Execed "ssh" ["ssh"; host_alias]],
                   Returned false)
              | ExecRaised e =>
                  ([Ran tab; Execed "kitten" ssh_argv; Execed "ssh" ["ssh"; host_alias]],
                   Raised e)
              end
          | ExecRaised e => ([Ran tab; Execed "kitten" ssh_argv], Raised e)
          end
      end
  else
    let tab := launch_prefix ++ ["ssh"; host_alias] in
    if tab_opened w tab then ([Ran tab], Returned true)
    else
      match tab_escaped w tab with
      | Some e => ([Ran tab], Raised e)
      | None =>
          match execvp w "ssh" ["ssh"; host_alias] with
          | ExecReplaced => ([Ran tab; Execed "ssh" ["ssh"; host_alias]], ImageReplaced)
          | ExecNotFound => ([Ran tab; Execed "ssh" ["ssh"; host_alias]], Returned false)
          | ExecRaised e => ([Ran tab; Execed "ssh" ["ssh"; host_alias]], Raised e)
          end
      end.

Definition notify (n : notification) (app : App) : App :=
  {| use_kitten_ssh := use_kitten_ssh app; hosts := hosts app;
     _filtered := _filtered app; host_list := host_list app;
     search_display := search_display app; status := status app;
     workers := workers app;
     notifications := notifications app ++ [n]; exited := exited app |}.

Definition exit (app : App) : App :=
  {| use_kitten_ssh := use_kitten_ssh app; hosts := hosts app;
     _filtered := _filtered app; host_list := host_list app;
     search_display := search_display app; status := status app;
     workers := workers app;
     notifications := notifications app; exited := true |}.

(** The message ends in the horizontal ellipsis U+2026, held here as
    the three bytes of its UTF-8 encoding. *)
Definition connecting (display : string) : notification :=
  {| message := String.append "Connecting to "
                  (String.append display
                     (String "226" (String "128" (String "166" EmptyString))));
     level := information; seconds := 2 |}.

Definition could_not_run : notification :=
  {| message := "Could not run kitten ssh or ssh (not in PATH)";
     level := error; seconds := 5 |}.

Definition on_list_view_selected (w : os) (idx : Z) (app : App)
    : list action * ending App :=
  if (idx <? 0)%Z || (Z.of_nat (List.length (_filtered app)) <=? idx)%Z
  then ([], Returned app)
  else
    match nth_error (_filtered app) (Z.to_nat idx) with
    | None => ([], Returned app)
    | Some (display, host_alias, theme) =>
        match _connect w (use_kitten_ssh app) host_alias theme with
        | (acts, Returned true) =>
            (acts, Returned (exit (notify (connecting display) app)))
        | (acts, Returned false) =>
            (acts, Returned (notify could_not_run app))
        | (acts, ImageReplaced) => (acts, ImageReplaced)
        | (acts, Raised e) => (acts, Raised e)
        end
    end.

Definition action_focus_search (app : App) : App :=
  {| use_kitten_ssh := use_kitten_ssh app; hosts := hosts app;
     _filtered := _filtered app; host_list := host_list app;
     search_display := negb (search_display app); status := status app;
     workers := workers app;
     notifications := notifications app; exited := exited app |}.

(** The list the handler stores in [_filtered]. *)
Definition filter_hosts (value : string) (hosts : list entry) : list entry :=
  let query := lower (strip value) in
  if negb (nonempty query) then hosts
  else filter (fun e => contains query (lower (display_label e))
                        || contains query (lower (target_key e))) hosts.

Definition host_count (n : nat) : string :=
  String.append (NilZero.string_of_uint (Nat.to_uint n)) " host(s)".

Definition on_input_changed (value : string) (app : App) : App :=
  let filtered := filter_hosts value (hosts app) in
  {| use_kitten_ssh := use_kitten_ssh app; hosts := hosts app;
     _filtered := filtered; host_list := host_list app;
     search_display := search_display app;
     status := host_count (List.length filtered);
     workers := S (workers app);
     notifications := notifications app; exited := exited app |}.

End ssh_host_selector.

(* ================================================================== *)
(** ** theme_selector.py *)
(* ================================================================== *)

Module theme_selector.
Import PyStr.

(** [(display, path)] *)
Definition entry : Type := string * Path.
Definition display_label (e : entry) : string := fst e.
Definition target_key (e : entry) : Path := snd e.

Definition get_kitty_config_dir (w : os) : Path :=
  match environ w "KITTY_CONFIG_DIRECTORY" with
  | Some env => if nonempty env then resolve w env
                else home w ++ [".config"; "kitty"]
  | None => home w ++ [".config"; "kitty"]
  end.

(** Order of [Path] objects: component by component. *)
Fixpoint path_leb (p q : Path) : bool :=
  match p, q with
  | [], _ => true
  | _ :: _, [] => false
  | a :: p', b :: q' =>
      match String.compare a b with
      | Lt => true
      | Eq => path_leb p' q'
      | Gt => false
      end
  end.

(** [path.name] *)
Definition name (path : Path) : string := last path "".

(** [name.rfind(".")], [None] for -1. *)
Fixpoint rfind_dot (s : string) : option nat :=
  match s with
  | EmptyString => None
  | String c s' =>
      match rfind_dot s' with
      | Some i => Some (S i)
      | None => if Ascii.eqb c "."%char then Some 0 else None
      end
  end.

(** [path.stem]: the name up to its last dot, when that dot is
    neither the first nor the last character. *)
Definition stem (path : Path) : string :=
  let nm := name path in
  match rfind_dot nm with
  | Some i => if (0 <? i) && (i <? String.length nm - 1)
              then String.substring 0 i nm else nm
  | None => nm
  end.

(** [path.relative_to(base)]; [None] stands for [ValueError]. *)
Fixpoint relative_to (path base : Path) : option Path :=
  match base with
  | [] => Some path
  | b :: base' =>
      match path with
      | [] => None
      | a :: path' => if (a =? b)%string then relative_to path' base' else None
      end
  end.

(** [str(p)] for a relative path. *)
Fixpoint join (parts : list string) : string :=
  match parts with
  | [] => "."
  | [a] => a
  | a :: rest => String.append a (String.append "/" (join rest))
  end.

(** [str(p)] for an absolute path. *)
Definition str_of_path (p : Path) : string :=
  match p with
  | [] => "/"
  | _ => String.append "/" (join p)
  end.

(** [parent / s] for a component [s]: pathlib drops a lone dot. *)
Definition joinpath (parent : list string) (s : string) : list string :=
  if (s =? ".")%string || negb (nonempty s) then parent else parent ++ [s].

(** The [try] block of [collect_themes]. *)
Definition display_of (config_dir path : Path) (stem : string) : string :=
  match relative_to path config_dir with
  | Some rel =>
      match removelast rel with
      | [] => stem
      | parent => join (joinpath parent stem)
      end
  | None => stem
  end.

(** The [for path in sorted(...)] loop with its [seen_stems] set. *)
Fixpoint scan (config_dir : Path) (seen_stems : list string) (paths : list Path)
    : list entry :=
  match paths with
  | [] => []
  | path :: paths' =>
      let st := stem path in
      if PyList.mem st seen_stems then scan config_dir seen_stems paths'
      else (display_of config_dir path st, path)
           :: scan config_dir (st :: seen_stems) paths'
  end.

(** [sorted(config_dir.rglob("*.conf"))] *)
Definition sorted_paths (found : list Path) : list Path :=
  PyList.sort (fun p => p) path_leb found.

(** [lambda t: t[0].lower()] *)
Definition sort_key (t : entry) : string := lower (display_label t).

Definition collect_themes (w : os) (config_dir : Path) : list entry :=
  if negb (is_dir w config_dir) then []
  else
    let themes := scan config_dir [] (sorted_paths (rglob_conf w config_dir)) in
    PyList.sort sort_key String.leb themes.

(** *** ThemeSelectorApp *)

Record ListView : Type := {
  children : list string;
  index    : option nat
}.

Record App : Type := {
  themes         : list entry;
  _filtered      : list entry;
  theme_list     : ListView;
  search_display : bool;
  status         : string;
  workers        : nat;
  notifications  : list notification;
  exited         : bool
}.

Definition set_colors (program : string) (path : Path) : list string :=
  [program; "@"; "set-colors"; "-a"; str_of_path path].

Definition timed_out : notification :=
  {| message := "Timed out waiting for kitty (try again or increase timeout)";
     level := error; seconds := 6 |}.

Definition failed (last_err : option string) : notification :=
  {| message := match last_err with
                | Some e => if nonempty e then e
                            else "Neither kitten nor kitty found in PATH"
                | None => "Neither kitten nor kitty found in PATH"
                end;
     level := error; seconds := 6 |}.

(** [(result.stderr or result.stdout or f"exit {result.returncode}").strip()] *)
Definition error_text (rc : Z) (stdout stderr : string) : string :=
  strip (if nonempty stderr then stderr
         else if nonempty stdout then stdout
         else String.append "exit " (NilZero.string_of_int (Z.to_int rc))).

(** The [for cmd in (...)] loop of [_apply_theme] and what follows it:
    the commands run, the notifications shown, and the returned value or
    the exception that no [except] clause of the loop catches. *)
Fixpoint try_commands (w : os) (last_err : option string) (cmds : list (list string))
    : list action * list notification * result bool :=
  match cmds with
  | [] => ([], [failed last_err], Ok false)
  | cmd :: cmds' =>
      match run w cmd with
      | RunExit rc out err =>
          if Z.eqb rc 0 then ([Ran cmd], [], Ok true)
          else
            let '(acts, notes, r) := try_commands w (Some (error_text rc out err)) cmds' in
            (Ran cmd :: acts, notes, r)
      | RunNotFound =>
          let '(acts, notes, r) := try_commands w last_err cmds' in
          (Ran cmd :: acts, notes, r)
      | RunTimeout => ([Ran cmd], [timed_out], Ok false)
      | RunRaised e => ([Ran cmd], [], Raise e)
      end
  end.

Definition _apply_theme (w : os) (path : Path) (display : string)
    : list action * list notification * result bool :=
  try_commands w None [set_colors "kitten" path; set_colors "kitty" path].

Definition applied (display : string) : notification :=
  {| message := String.append "Applied: " display;
     level := information; seconds := 2 |}.

(** The commands run, the picker afterwards, and the exception, if
    any, that leaves the handler. *)
Definition on_list_view_selected (w : os) (idx : Z) (app : App)
    : list action * App * option exn :=
  if (idx <? 0)%Z || (Z.of_nat (List.length (_filtered app)) <=? idx)%Z
  then ([], app, None)
  else
    match nth_error (_filtered app) (Z.to_nat idx) with
    | None => ([], app, None)
    | Some (display, path) =>
        match _apply_theme w path display with
        | (acts, notes, Raise e) => (acts, app, Some e)
        | (acts, notes, Ok ok) =>
            (acts,
             {| themes := themes app; _filtered := _filtered app;
                theme_list := theme_list app;
                search_display := search_display app;
                status := if ok then String.append "Current: " display else status app;
                workers := workers app;
                notifications :=
                  notifications app ++ notes ++ (if ok then [applied display] else []);
                exited := exited app |},
             None)
        end
    end.

Definition filter_themes (value : string) (themes : list entry) : list entry :=
  let query := lower (strip value) in
  if negb (nonempty query) then themes
  else filter (fun e => contains query (lower (display_label e))) themes.

Definition theme_count (n : nat) : string :=
  String.append (NilZero.string_of_uint (Nat.to_uint n)) " theme(s)".

Definition on_input_changed (value : string) (app : App) : App :=
  let filtered := filter_themes value (themes app) in
  {| themes := themes app; _filtered := filtered;
     theme_list := theme_list app;
     search_display := search_display app;
     status := theme_count (List.length filtered);
     workers := S (workers app);
     notifications := notifications app; exited := exited app |}.

End theme_selector.

(* ================================================================== *)
(** ** Specification vocabulary *)
(* ================================================================== *)

(** [q] occurs in [s] as a contiguous substring. *)
Definition substring_of (q s : string) : Prop :=
  exists pre post, s = String.append pre (String.append q post).

(** [l'] keeps, in order, exactly the elements of [l] that satisfy [P]. *)
Inductive selection {A : Type} (P : A -> Prop) : list A -> list A -> Prop :=
| selection_nil : selection P [] []
| selection_keep x l l' : P x -> selection P l l' -> selection P (x :: l) (x :: l')
| selection_skip x l l' : ~ P x -> selection P l l' -> selection P (x :: l) l'.

(** [s] is empty or consists of white space only. *)
Definition blank (s : string) : Prop :=
  forall c, In c (list_ascii_of_string s) -> PyStr.isspace c = true.

(** What a host (resp. a theme) must satisfy to pass the query [q]. *)
Definition host_matches (q : string) (e : ssh_host_selector.entry) : Prop :=
  substring_of q (PyStr.lower (ssh_host_selector.display_label e)) \/
  substring_of q (PyStr.lower (ssh_host_selector.target_key e)).

Definition theme_matches (q : string) (e : theme_selector.entry) : Prop :=
  substring_of q (PyStr.lower (theme_selector.display_label e)).

(** Order by key and, among equal keys, by [le2]. *)
Definition lex_le {A K : Type} (key : A -> K) (leb : K -> K -> bool)
    (le2 : A -> A -> Prop) (a b : A) : Prop :=
  leb (key a) (key b) = true /\ (leb (key b) (key a) = true -> le2 a b).

(** What one line can do to the variables of the line loop. *)
Inductive line_effect (st st' : ssh_host_selector.locals) : Prop :=
| header_line :
    ssh_host_selector.entries st' = ssh_host_selector.close_block st ->
    line_effect st st'
| body_line :
    ssh_host_selector.entries st' = ssh_host_selector.entries st ->
    ssh_host_selector.current_hosts st' = ssh_host_selector.current_hosts st ->
    line_effect st st'.

(** Entries are only ever appended for non-empty aliases other than the
    wild card. *)
Definition emitted (e : ssh_host_selector.entry) : Prop :=
  ssh_host_selector.target_key e <> "*" /\ ssh_host_selector.target_key e <> "".

(** The command line of the tab attempt of [_connect]. *)
Definition tab_argv (use_kitten : bool) (host_alias : string) (theme : option string)
    : list string :=
  if use_kitten
  then ssh_host_selector.launch_prefix ++ ssh_host_selector.kitten_ssh_argv host_alias theme
  else ssh_host_selector.launch_prefix ++ ["ssh"; host_alias].

(** The first [os.execvp] of [_connect]. *)
Definition first_exec (use_kitten : bool) (host_alias : string) (theme : option string)
    : action :=
  if use_kitten then Execed "kitten" (ssh_host_selector.kitten_ssh_argv host_alias theme)
  else Execed "ssh" ["ssh"; host_alias].

(** Order of the host list: lower-cased label, then alias. *)
Definition host_order (a b : ssh_host_selector.entry) : Prop :=
  let la := PyStr.lower (ssh_host_selector.display_label a) in
  let lb := PyStr.lower (ssh_host_selector.display_label b) in
  String.ltb la lb = true \/
  (la = lb /\
   String.leb (ssh_host_selector.target_key a) (ssh_host_selector.target_key b) = true).

(** Order of the theme list: lower-cased label, then path. *)
Definition theme_order (a b : theme_selector.entry) : Prop :=
  let la := PyStr.lower (theme_selector.display_label a) in
  let lb := PyStr.lower (theme_selector.display_label b) in
  String.ltb la lb = true \/
  (la = lb /\
   theme_selector.path_leb (theme_selector.target_key a) (theme_selector.target_key b) = true).

(* ================================================================== *)
(** ** Sample inputs *)
(* ================================================================== *)

Module Samples.
Definition LF : string := String "010" EmptyString.

Definition lines (ls : list string) : string :=
  fold_right (fun l acc => String.append l (String.append LF acc)) EmptyString ls.

(** Nothing is set, nothing exists, no program is installed. *)
Definition bare : os :=
  {| environ := fun _ => None;
     home := ["home"; "u"];
     resolve := fun s => ["cwd"; s];
     is_file := fun _ => Ok false;
     read_text := fun _ => ReadOSError;
     is_dir := fun _ => false;
     rglob_conf := fun _ => [];
     run := fun _ => RunNotFound;
     execvp := fun _ _ => ExecNotFound |}.

Definition with_environ (name value : string) (w : os) : os :=
  {| environ := fun n => if (n =? name)%string then Some value else environ w n;
     home := home w; resolve := resolve w; is_file := is_file w;
     read_text := read_text w; is_dir := is_dir w; rglob_conf := rglob_conf w;
     run := run w; execvp := execvp w |}.

Definition with_file (text : string) (w : os) : os :=
  {| environ := environ w; home := home w; resolve := resolve w;
     is_file := fun _ => Ok true; read_text := fun _ => ReadText text;
     is_dir := is_dir w; rglob_conf := rglob_conf w;
     run := run w; execvp := execvp w |}.

Definition with_unreadable_file (w : os) : os :=
  {| environ := environ w; home := home w; resolve := resolve w;
     is_file := fun _ => Ok true; read_text := fun _ => ReadOSError;
     is_dir := is_dir w; rglob_conf := rglob_conf w;
     run := run w; execvp := execvp w |}.

Definition with_dir (found : list Path) (w : os) : os :=
  {| environ := environ w; home := home w; resolve := resolve w;
     is_file := is_file w; read_text := read_text w;
     is_dir := fun _ => true; rglob_conf := fun _ => found;
     run := run w; execvp := execvp w |}.

(** [subprocess.run] answers by the program name [argv[0]]. *)
Definition with_run (by_program : string -> run_outcome) (w : os) : os :=
  {| environ := environ w; home := home w; resolve := resolve w;
     is_file := is_file w; read_text := read_text w;
     is_dir := is_dir w; rglob_conf := rglob_conf w;
     run := fun argv => by_program (hd EmptyString argv); execvp := execvp w |}.

Definition scenario_A : string :=
  lines ["Host alpha beta"; "  User root"; "# kitty theme: dracula"; "Host *"].

Definition two_blocks : string :=
  lines ["Host web"; "  User ann"; "Host db web"; "  User bob"].

Definition ssh_config : Path := ["home"; "u"; ".ssh"; "config"].
Definition kitty_dir : Path := ["home"; "u"; ".config"; "kitty"].

Definition theme_files : list Path :=
  [ kitty_dir ++ ["b"; "one.conf"];
    kitty_dir ++ ["a"; "one.conf"];
    kitty_dir ++ ["Zen.conf"] ].

Definition alpha : ssh_host_selector.entry := ("alpha", "alpha", None).
Definition web : ssh_host_selector.entry := ("ann@web", "web", Some "dracula").

Definition ssh_app (use_kitten : bool) (hs : list ssh_host_selector.entry)
    : ssh_host_selector.App :=
  {| ssh_host_selector.use_kitten_ssh := use_kitten;
     ssh_host_selector.hosts := hs;
     ssh_host_selector._filtered := hs;
     ssh_host_selector.host_list :=
       {| ssh_host_selector.children := map ssh_host_selector.display_label hs;
          ssh_host_selector.index := Some 0 |};
     ssh_host_selector.search_display := false;
     ssh_host_selector.status := EmptyString;
     ssh_host_selector.workers := 0;
     ssh_host_selector.notifications := [];
     ssh_host_selector.exited := false |}.

Definition zen : theme_selector.entry := ("Zen", kitty_dir ++ ["Zen.conf"]).

Definition theme_app (ts : list theme_selector.entry) : theme_selector.App :=
  {| theme_selector.themes := ts;
     theme_selector._filtered := ts;
     theme_selector.theme_list :=
       {| theme_selector.children := map theme_selector.display_label ts;
          theme_selector.index := Some 0 |};
     theme_selector.search_display := false;
     theme_selector.status := EmptyString;
     theme_selector.workers := 0;
     theme_selector.notifications := [];
     theme_selector.exited := false |}.

(** [kitten] hangs, [kitty] would answer. *)
Definition kitten_hangs : os :=
  with_run
    (fun program => if (program =? "kitten")%string then RunTimeout
                    else RunExit 0 EmptyString EmptyString)
    bare.

(** Every [subprocess.run] succeeds. *)
Definition all_tools : os :=
  with_run (fun _ => RunExit 0 EmptyString EmptyString) bare.
End Samples.

(* ================================================================== *)
(** ** Vocabulary for the remaining properties *)
(* ================================================================== *)

(** No character of [s] is white space. *)
Definition whitespace_free (s : string) : Prop :=
  forall c, In c (list_ascii_of_string s) -> PyStr.isspace c = false.

(** A word as [str.split] produces them. *)
Definition word (s : string) : Prop := s <> "" /\ whitespace_free s.

(** The shape of every entry the host parser can produce. *)
Definition well_formed (e : ssh_host_selector.entry) : Prop :=
  word (ssh_host_selector.target_key e) /\
  ssh_host_selector.target_key e <> "*" /\
  (ssh_host_selector.display_label e = ssh_host_selector.target_key e \/
   exists user, user <> "" /\
     ssh_host_selector.display_label e
     = String.append user (String.append "@" (ssh_host_selector.target_key e))) /\
  (ssh_host_selector.metadata e = None \/
   exists theme, theme <> "" /\ ssh_host_selector.metadata e = Some theme).

(** A theme, when recorded, is never the empty string. *)
Definition theme_ok (o : option string) : Prop :=
  o = None \/ exists t, t <> "" /\ o = Some t.

(** What the line loop of [parse_ssh_config] keeps true. *)
Definition loop_invariant (st : ssh_host_selector.locals) : Prop :=
  Forall well_formed (ssh_host_selector.entries st) /\
  Forall word (ssh_host_selector.current_hosts st) /\
  theme_ok (ssh_host_selector.current_theme st).

(** The header test of the line loop. *)
Definition is_header (raw_line : string) : bool :=
  PyStr.startswith (PyStr.lower (PyStr.strip raw_line)) "host ".

(** The directive test of the comment branch. *)
Definition is_directive (raw_line : string) : bool :=
  let rlower := PyStr.lower (PyStr.strip (PyStr.drop1 (PyStr.strip raw_line))) in
  PyStr.startswith rlower "kitty theme:" || PyStr.startswith rlower "kitty theme=".

(** A line the loop skips: blank, or a comment that is not a directive. *)
Definition skipped (raw_line : string) : Prop :=
  PyStr.strip raw_line = "" \/
  (PyStr.startswith (PyStr.strip raw_line) "#" = true /\ is_directive raw_line = false).

(** [subprocess.run(cmd)] returned with exit status 0. *)
Definition exits_zero (w : os) (cmd : list string) : bool :=
  match run w cmd with
  | RunExit rc _ _ => Z.eqb rc 0
  | RunRaised _ => false
  end.

(** The tab attempt of [_connect] failed in a way the code recovers
    from: a non-zero exit status, [FileNotFoundError] or
    [TimeoutExpired]. *)
Definition tab_failed (w : os) (argv : list string) : bool :=
  match run w argv with
  | RunExit rc _ _ => negb (Z.eqb rc 0)
  | RunNotFound => true
  | RunTimeout => true
  | RunRaised _ => false
  end.

(** The loop of [_apply_theme] goes on to the next command: a non-zero
    exit status or [FileNotFoundError]. *)
Definition moves_on (w : os) (cmd : list string) : bool :=
  match run w cmd with
  | RunExit rc _ _ => negb (Z.eqb rc 0)
  | RunNotFound => true
  | RunRaised _ => false
  end.

(** [subprocess.run(cmd)] raised [e], and [e] is neither
    [FileNotFoundError] nor [TimeoutExpired]: no [except] clause of the
    launchers catches it. *)
Definition escapes (w : os) (cmd : list string) (e : exn) : Prop :=
  run w cmd = RunRaised e /\ e <> FileNotFoundError /\ e <> TimeoutExpired.

(** The identifiers of a header line:
    [parts[1].split() if len(parts) > 1 else []] with
    [parts = line.split(None, 1)]. *)
Definition header_hosts (raw_line : string) : list string :=
  match PyStr.split_maxsplit1 (PyStr.strip raw_line) with
  | _ :: rest :: _ => PyStr.split rest
  | _ => []
  end.

(** Order of the theme list as the data model words it: lower-cased
    label, then [target_key] as the serialized path, a string. *)
Definition theme_order_by_string (a b : theme_selector.entry) : Prop :=
  let la := PyStr.lower (theme_selector.display_label a) in
  let lb := PyStr.lower (theme_selector.display_label b) in
  String.ltb la lb = true \/
  (la = lb /\
   String.leb (theme_selector.str_of_path (theme_selector.target_key a))
              (theme_selector.str_of_path (theme_selector.target_key b)) = true).

(** What holds of the list [parse_ssh_config] returns; the call raises
    only what [Path.is_file] raised. *)
Definition parsed (w : os) (config_path : Path)
    (P : list ssh_host_selector.entry -> Prop) : Prop :=
  match ssh_host_selector.parse_ssh_config w config_path with
  | Ok out => P out
  | Raise e => is_file w config_path = Raise e
  end.

Module MoreSamples.
(** Only [kitty] is installed, and it refuses. *)
Definition kitty_refuses : os :=
  Samples.with_run
    (fun program => if (program =? "kitty")%string
                    then RunExit 1 EmptyString " no such window "
                    else RunNotFound)
    Samples.bare.

(** [kitten] fails, [kitty] succeeds. *)
Definition kitty_only : os :=
  Samples.with_run
    (fun program => if (program =? "kitty")%string
                    then RunExit 0 EmptyString EmptyString
                    else RunExit 2 "usage" EmptyString)
    Samples.bare.

(** [kitten] cannot be executed: [subprocess.run] raises PermissionError. *)
Definition kitten_denied : os :=
  Samples.with_run
    (fun program => if (program =? "kitten")%string then RunRaised PermissionError
                    else RunExit 0 EmptyString EmptyString)
    Samples.bare.

(** The directory of the config file cannot be searched: [is_file]
    raises PermissionError. *)
Definition stat_denied : os :=
  {| environ := environ Samples.bare; home := home Samples.bare;
     resolve := resolve Samples.bare;
     is_file := fun _ => Raise PermissionError;
     read_text := fun _ => ReadText Samples.two_blocks;
     is_dir := is_dir Samples.bare; rglob_conf := rglob_conf Samples.bare;
     run := run Samples.bare; execvp := execvp Samples.bare |}.

(** The tab cannot be opened and [kitten] cannot be executed. *)
Definition exec_denied : os :=
  {| environ := environ Samples.bare; home := home Samples.bare;
     resolve := resolve Samples.bare;
     is_file := is_file Samples.bare; read_text := read_text Samples.bare;
     is_dir := is_dir Samples.bare; rglob_conf := rglob_conf Samples.bare;
     run := fun _ => RunExit 1 EmptyString EmptyString;
     execvp := fun _ _ => ExecRaised PermissionError |}.

(** Two files with the same label: [sub.conf] and [sub/..conf]. *)
Definition same_label_files : list Path :=
  [ Samples.kitty_dir ++ ["sub.conf"]; Samples.kitty_dir ++ ["sub"; "..conf"] ].

Definition three_hosts : list ssh_host_selector.entry :=
  [("alpha", "alpha", None); ("beta", "beta", None); ("root@gamma", "gamma", Some "dracula")].

Definition theme_files_again : list Path :=
  [ Samples.kitty_dir ++ ["Zen.conf"];
    Samples.kitty_dir ++ ["a"; "one.conf"];
    Samples.kitty_dir ++ ["b"; "one.conf"] ].
End MoreSamples.

(* ================================================================== *)
(** * Facts about the order of strings, tuples and paths *)
(* ================================================================== *)

Lemma ascii_compare_refl (a : ascii) : Ascii.compare a a = Eq.
Proof. unfold Ascii.compare. apply N.compare_refl. Qed.

Lemma ascii_compare_lt_trans (a b c : ascii) :
  Ascii.compare a b = Lt -> Ascii.compare b c = Lt -> Ascii.compare a c = Lt.
Proof.
  unfold Ascii.compare. rewrite !N.compare_lt_iff. apply N.lt_trans.
Qed.

Lemma string_compare_refl (s : string) : String.compare s s = Eq.
Proof.
  induction s as [|c s IH]; simpl; [reflexivity|].
  now rewrite ascii_compare_refl.
Qed.

Lemma string_compare_lt_trans (a b c : string) :
  String.compare a b = Lt -> String.compare b c = Lt -> String.compare a c = Lt.
Proof.
  revert b c. induction a as [|x a IH]; intros [|y b] [|z c]; simpl;
    try discriminate; try reflexivity.
  destruct (Ascii.compare x y) eqn:Exy; try discriminate;
    destruct (Ascii.compare y z) eqn:Eyz; try discriminate; intros H1 H2.
  - apply Ascii.compare_eq_iff in Exy, Eyz. subst.
    rewrite ascii_compare_refl. eauto.
  - apply Ascii.compare_eq_iff in Exy. subst. now rewrite Eyz.
  - apply Ascii.compare_eq_iff in Eyz. subst. now rewrite Exy.
  - now rewrite (ascii_compare_lt_trans _ _ _ Exy Eyz).
Qed.

Lemma string_compare_gt_lt (a b : string) :
  String.compare a b = Gt -> String.compare b a = Lt.
Proof. rewrite String.compare_antisym. now destruct (String.compare b a). Qed.

Lemma string_leb_refl (s : string) : String.leb s s = true.
Proof. unfold String.leb. now rewrite string_compare_refl. Qed.

Lemma string_leb_trans (a b c : string) :
  String.leb a b = true -> String.leb b c = true -> String.leb a c = true.
Proof.
  unfold String.leb.
  destruct (String.compare a b) eqn:Eab; try discriminate;
    destruct (String.compare b c) eqn:Ebc; try discriminate; intros _ _.
  - apply String.compare_eq_iff in Eab, Ebc. subst. now rewrite string_compare_refl.
  - apply String.compare_eq_iff in Eab. subst. now rewrite Ebc.
  - apply String.compare_eq_iff in Ebc. subst. now rewrite Eab.
  - now rewrite (string_compare_lt_trans _ _ _ Eab Ebc).
Qed.

Lemma string_ltb_or_eq (a b : string) :
  String.leb a b = true -> String.ltb a b = true \/ a = b.
Proof.
  unfold String.leb, String.ltb.
  destruct (String.compare a b) eqn:E; try discriminate; intros _.
  - right. now apply String.compare_eq_iff.
  - now left.
Qed.

Lemma key_leb_total (k1 k2 : string * string) :
  ssh_host_selector.key_leb k1 k2 = true \/ ssh_host_selector.key_leb k2 k1 = true.
Proof.
  unfold ssh_host_selector.key_leb.
  destruct (String.compare (fst k1) (fst k2)) eqn:E.
  - apply String.compare_eq_iff in E. rewrite E, string_compare_refl.
    apply String.leb_total.
  - now left.
  - right. now rewrite (string_compare_gt_lt _ _ E).
Qed.

Lemma key_leb_trans (k1 k2 k3 : string * string) :
  ssh_host_selector.key_leb k1 k2 = true ->
  ssh_host_selector.key_leb k2 k3 = true ->
  ssh_host_selector.key_leb k1 k3 = true.
Proof.
  unfold ssh_host_selector.key_leb.
  destruct (String.compare (fst k1) (fst k2)) eqn:E12; try discriminate;
    destruct (String.compare (fst k2) (fst k3)) eqn:E23; try discriminate;
    intros H1 H2.
  - apply String.compare_eq_iff in E12, E23. rewrite E12, E23, string_compare_refl.
    eapply string_leb_trans; eauto.
  - apply String.compare_eq_iff in E12. now rewrite E12, E23.
  - apply String.compare_eq_iff in E23. now rewrite <- E23, E12.
  - now rewrite (string_compare_lt_trans _ _ _ E12 E23).
Qed.

Lemma path_leb_total (p q : Path) :
  theme_selector.path_leb p q = true \/ theme_selector.path_leb q p = true.
Proof.
  revert q. induction p as [|a p IH]; intros [|b q]; simpl; auto.
  destruct (String.compare a b) eqn:E.
  - apply String.compare_eq_iff in E. subst. rewrite string_compare_refl. apply IH.
  - now left.
  - right. now rewrite (string_compare_gt_lt _ _ E).
Qed.

Lemma path_leb_trans (p q r : Path) :
  theme_selector.path_leb p q = true ->
  theme_selector.path_leb q r = true ->
  theme_selector.path_leb p r = true.
Proof.
  revert q r. induction p as [|a p IH]; intros [|b q] [|c r]; simpl;
    try discriminate; try reflexivity.
  destruct (String.compare a b) eqn:Eab; try discriminate;
    destruct (String.compare b c) eqn:Ebc; try discriminate; intros H1 H2.
  - apply String.compare_eq_iff in Eab, Ebc. subst. rewrite string_compare_refl. eauto.
  - apply String.compare_eq_iff in Eab. subst. now rewrite Ebc.
  - apply String.compare_eq_iff in Ebc. subst. now rewrite Eab.
  - now rewrite (string_compare_lt_trans _ _ _ Eab Ebc).
Qed.

(* ================================================================== *)
(** * Facts about the stable sort *)
(* ================================================================== *)

Section SortFacts.
Context {A K : Type}.
Variable key : A -> K.
Variable leb : K -> K -> bool.
Hypothesis leb_total : forall a b, leb a b = true \/ leb b a = true.
Hypothesis leb_trans :
  forall a b c, leb a b = true -> leb b c = true -> leb a c = true.

Let key_le (a b : A) : Prop := leb (key a) (key b) = true.

Lemma insert_perm (x : A) (l : list A) :
  Permutation (PyList.insert key leb x l) (x :: l).
Proof.
  induction l as [|y l IH]; simpl; [reflexivity|].
  destruct (leb (key x) (key y)); [reflexivity|].
  rewrite IH. apply perm_swap.
Qed.

Lemma sort_perm (l : list A) : Permutation (PyList.sort key leb l) l.
Proof.
  induction l as [|x l IH]; simpl; [reflexivity|].
  rewrite insert_perm. now constructor.
Qed.

Lemma sort_In (l : list A) (x : A) : In x (PyList.sort key leb l) <-> In x l.
Proof.
  split; apply Permutation_in; [|symmetry]; apply sort_perm.
Qed.

(** Stability: [le2] is an order the input already respects; after the
    sort, elements are ordered by key and, among equal keys, by [le2]. *)
Variable le2 : A -> A -> Prop.

Lemma insert_lex (x : A) (l : list A) :
  Forall (le2 x) l ->
  StronglySorted (lex_le key leb le2) l ->
  StronglySorted (lex_le key leb le2) (PyList.insert key leb x l).
Proof.
  induction l as [|y l IH]; intros Hx Hs; simpl.
  - constructor; constructor.
  - inversion Hs as [|? ? Hs' Hy]; subst.
    inversion Hx as [|? ? Hxy Hxl]; subst.
    destruct (leb (key x) (key y)) eqn:E.
    + constructor; [assumption|].
      constructor; [split; [exact E | intros _; exact Hxy]|].
      rewrite Forall_forall in *. intros z Hz. split.
      * eapply leb_trans; [exact E | apply (Hy z Hz)].
      * intros _. now apply Hxl.
    + constructor; [now apply IH|].
      rewrite Forall_forall in *. intros z Hz.
      apply (Permutation_in _ (insert_perm x l)) in Hz.
      destruct Hz as [<- | Hz]; [|now apply Hy].
      split.
      * destruct (leb_total (key x) (key y)) as [H|H]; [congruence | exact H].
      * unfold key_le. intros H. congruence.
Qed.

Lemma sort_stable (l : list A) :
  StronglySorted le2 l -> StronglySorted (lex_le key leb le2) (PyList.sort key leb l).
Proof.
  induction l as [|x l IH]; intros Hs; simpl; [constructor|].
  inversion Hs as [|? ? Hs' Hx]; subst.
  apply insert_lex; [|now apply IH].
  apply Forall_forall. intros z Hz.
  rewrite Forall_forall in Hx. apply Hx.
  apply (proj1 (sort_In l z)). exact Hz.
Qed.
End SortFacts.

Lemma sort_sorted {A K : Type} (key : A -> K) (leb : K -> K -> bool)
    (leb_total : forall a b, leb a b = true \/ leb b a = true)
    (leb_trans : forall a b c, leb a b = true -> leb b c = true -> leb a c = true)
    (l : list A) :
  StronglySorted (fun a b => leb (key a) (key b) = true) (PyList.sort key leb l).
Proof.
  induction l as [|x l IH]; simpl; [constructor|].
  assert (H := insert_lex key leb leb_total leb_trans (fun _ _ => True) x
                 (PyList.sort key leb l)).
  assert (Hl : StronglySorted (lex_le key leb (fun _ _ => True))
                 (PyList.insert key leb x (PyList.sort key leb l))).
  { apply H.
    - apply Forall_forall. intros; exact I.
    - clear H. induction IH; constructor; [assumption|].
      eapply Forall_impl; [|eassumption]. intros b Hb. split; [exact Hb | intros _; exact I]. }
  clear H IH. induction Hl; constructor; [assumption|].
  eapply Forall_impl; [|eassumption]. intros b [Hb _]. exact Hb.
Qed.

(* ================================================================== *)
(** * Facts about the de-duplication loops *)
(* ================================================================== *)

Lemma mem_In (x : string) (seen : list string) :
  PyList.mem x seen = true <-> In x seen.
Proof.
  unfold PyList.mem. rewrite existsb_exists. split.
  - intros [y [Hy E]]. apply String.eqb_eq in E. now subst.
  - intros H. exists x. split; [assumption | apply String.eqb_refl].
Qed.

Lemma mem_not_In (x : string) (seen : list string) :
  PyList.mem x seen = false <-> ~ In x seen.
Proof.
  rewrite <- mem_In. destruct (PyList.mem x seen); split; congruence.
Qed.

Section FirstOccurrenceFacts.
Context {A : Type}.
Variable key : A -> string.

Lemma first_occurrences_incl (seen : list string) (l : list A) (x : A) :
  In x (PyList.first_occurrences key seen l) -> In x l.
Proof.
  revert seen. induction l as [|h l IH]; intros seen; simpl; [tauto|].
  destruct (PyList.mem (key h) seen).
  - intros H. right. eauto.
  - intros [H | H]; [now left | right; eauto].
Qed.

Lemma first_occurrences_unseen (seen : list string) (l : list A) (x : A) :
  In x (PyList.first_occurrences key seen l) -> ~ In (key x) seen.
Proof.
  revert seen. induction l as [|h l IH]; intros seen; simpl; [tauto|].
  destruct (PyList.mem (key h) seen) eqn:E.
  - apply IH.
  - intros [<- | H]; [now apply mem_not_In|].
    intros Hin. apply (IH _ H). now right.
Qed.

Lemma first_occurrences_NoDup (seen : list string) (l : list A) :
  NoDup (map key (PyList.first_occurrences key seen l)).
Proof.
  revert seen. induction l as [|h l IH]; intros seen; simpl; [constructor|].
  destruct (PyList.mem (key h) seen); [apply IH|].
  simpl. constructor; [|apply IH].
  intros Hin. apply in_map_iff in Hin. destruct Hin as [y [Ey Hy]].
  apply first_occurrences_unseen in Hy. apply Hy. rewrite Ey. now left.
Qed.

Lemma first_occurrences_first (seen : list string) (l : list A) (x : A) :
  In x (PyList.first_occurrences key seen l) ->
  exists pre post, l = pre ++ x :: post /\ Forall (fun y => key y <> key x) pre.
Proof.
  revert seen. induction l as [|h l IH]; intros seen; simpl; [tauto|].
  destruct (PyList.mem (key h) seen) eqn:E.
  - intros H. destruct (IH _ H) as [pre [post [-> Hpre]]].
    exists (h :: pre), post. split; [reflexivity|].
    constructor; [|assumption].
    intros Ek. apply (first_occurrences_unseen _ _ _ H).
    rewrite <- Ek. now apply mem_In.
  - intros [<- | H].
    + exists [], l. split; [reflexivity | constructor].
    + destruct (IH _ H) as [pre [post [-> Hpre]]].
      exists (h :: pre), post. split; [reflexivity|].
      constructor; [|assumption].
      intros Ek. apply (first_occurrences_unseen _ _ _ H). now left.
Qed.

Lemma first_occurrences_complete (seen : list string) (l : list A) (y : A) :
  In y l -> ~ In (key y) seen ->
  exists x, In x (PyList.first_occurrences key seen l) /\ key x = key y.
Proof.
  revert seen. induction l as [|h l IH]; intros seen; simpl; [tauto|].
  intros Hy Hs. destruct (PyList.mem (key h) seen) eqn:E.
  - destruct Hy as [<- | Hy]; [apply mem_In in E; contradiction|].
    now apply IH.
  - destruct (String.eqb_spec (key h) (key y)) as [Ek | Nk].
    + exists h. split; [now left | assumption].
    + destruct Hy as [<- | Hy]; [congruence|].
      destruct (IH (key h :: seen) Hy) as [x [Hx Ex]].
      * intros [H | H]; [congruence | contradiction].
      * exists x. split; [now right | assumption].
Qed.
End FirstOccurrenceFacts.

Lemma dedupe_first_occurrences (seen : list string) (es : list ssh_host_selector.entry) :
  ssh_host_selector.dedupe seen es
  = PyList.first_occurrences ssh_host_selector.target_key seen es.
Proof.
  revert seen. induction es as [|[[d a] t] es IH]; intros seen; simpl; [reflexivity|].
  unfold ssh_host_selector.target_key at 1 3. simpl.
  destruct (PyList.mem a seen); now rewrite IH.
Qed.

Lemma scan_first_occurrences (config_dir : Path) (seen : list string) (paths : list Path) :
  theme_selector.scan config_dir seen paths
  = map (fun p => (theme_selector.display_of config_dir p (theme_selector.stem p), p))
        (PyList.first_occurrences theme_selector.stem seen paths).
Proof.
  revert seen. induction paths as [|p paths IH]; intros seen; simpl; [reflexivity|].
  destruct (PyList.mem (theme_selector.stem p) seen); simpl; now rewrite IH.
Qed.

(* ================================================================== *)
(** * Facts about the line loop of [parse_ssh_config] *)
(* ================================================================== *)

Module ParserFacts.
Import PyStr ssh_host_selector.

Lemma eqb_colon_lower (c : ascii) :
  Ascii.eqb ":" (lower_char c) = Ascii.eqb ":" c.
Proof. destruct c as [[] [] [] [] [] [] [] []]; reflexivity. Qed.

Lemma eqb_equals_lower (c : ascii) :
  Ascii.eqb "=" (lower_char c) = Ascii.eqb "=" c.
Proof. destruct c as [[] [] [] [] [] [] [] []]; reflexivity. Qed.

Lemma has_colon_lower (s : string) : has_char ":" (lower s) = has_char ":" s.
Proof.
  induction s as [|c s IH]; cbn [has_char lower]; [reflexivity|].
  now rewrite eqb_colon_lower, IH.
Qed.

Lemma has_equals_lower (s : string) : has_char "=" (lower s) = has_char "=" s.
Proof.
  induction s as [|c s IH]; cbn [has_char lower]; [reflexivity|].
  now rewrite eqb_equals_lower, IH.
Qed.

Lemma prefix_has_char (c : ascii) (p s : string) :
  String.prefix p s = true -> has_char c p = true -> has_char c s = true.
Proof.
  revert s. induction p as [|a p IH]; intros s Hp Hc; [discriminate Hc|].
  destruct s as [|b s]; [discriminate Hp|].
  cbn [String.prefix] in Hp.
  destruct (ascii_dec a b) as [<- | _]; [|discriminate Hp].
  cbn [has_char] in *. apply orb_true_iff in Hc. apply orb_true_iff.
  destruct Hc as [Hc | Hc]; [now left | right; eauto].
Qed.

(** With the separator present, [split(sep, 1)] has a second element. *)
Lemma split_sep1_two (sep : ascii) (s : string) :
  has_char sep s = true -> exists a b, split_sep1 sep s = [a; b].
Proof.
  induction s as [|c s IH]; cbn [has_char split_sep1]; [discriminate|].
  rewrite (Ascii.eqb_sym sep c).
  destruct (Ascii.eqb c sep); cbn [orb].
  - intros _. now exists EmptyString, s.
  - intros H. destruct (IH H) as [a [b ->]]. now exists (String c a), b.
Qed.

(** The directive test guarantees that the chosen separator occurs. *)
Lemma directive_has_separator (rest : string) :
  startswith (lower rest) "kitty theme:" || startswith (lower rest) "kitty theme=" = true ->
  has_char (if has_char ":" rest then ":"%char else "="%char) rest = true.
Proof.
  intros H. destruct (has_char ":" rest) eqn:Ec; [exact Ec|].
  apply orb_true_iff in H. destruct H as [H | H]; unfold startswith in H.
  - apply (prefix_has_char ":") in H; [|reflexivity].
    rewrite has_colon_lower in H. congruence.
  - apply (prefix_has_char "=") in H; [|reflexivity].
    now rewrite has_equals_lower in H.
Qed.

Lemma comment_line_ok (st : locals) (line : string) :
  exists st', comment_line st line = Ok st' /\ line_effect st st'.
Proof.
  unfold comment_line.
  destruct (startswith (lower (strip (drop1 line))) "kitty theme:"
            || startswith (lower (strip (drop1 line))) "kitty theme=") eqn:E.
  - apply directive_has_separator in E.
    destruct (split_sep1_two _ _ E) as [a [b ->]]. simpl.
    destruct (nonempty (strip b)); eexists; split; try reflexivity;
      now apply body_line.
  - eexists; split; [reflexivity | now apply body_line].
Qed.

Lemma parse_line_ok (st : locals) (raw_line : string) :
  exists st', parse_line st raw_line = Ok st' /\ line_effect st st'.
Proof.
  unfold parse_line.
  destruct (startswith (lower (strip raw_line)) "host ").
  - destruct (split_maxsplit1 (strip raw_line)) as [|a [|b parts]]; simpl;
      eexists; split; try reflexivity; now apply header_line.
  - destruct (negb (nonempty (strip raw_line))).
    + eexists; split; [reflexivity | now apply body_line].
    + destruct (startswith (strip raw_line) "#"); [apply comment_line_ok|].
      destruct (split_maxsplit1 (strip raw_line)) as [|a [|b parts]]; simpl;
        try (eexists; split; [reflexivity | now apply body_line]).
      destruct (lower a =? "user")%string;
        eexists; split; try reflexivity; now apply body_line.
Qed.

Lemma emit_emitted (user theme : option string) (hs : list string) (acc : list entry) :
  Forall emitted acc -> Forall emitted (emit user theme hs acc).
Proof.
  revert acc. induction hs as [|alias hs IH]; intros acc Hacc; simpl; [assumption|].
  destruct (nonempty alias && negb (alias =? "*")%string) eqn:E; [|now apply IH].
  apply IH. apply Forall_app. split; [assumption|].
  constructor; [|constructor].
  apply andb_true_iff in E. destruct E as [E1 E2].
  apply negb_true_iff, String.eqb_neq in E2.
  split; unfold target_key; simpl; [assumption|].
  intros ->. discriminate.
Qed.

Lemma close_block_emitted (st : locals) :
  Forall emitted (entries st) -> Forall emitted (close_block st).
Proof.
  unfold close_block. destruct (current_hosts st); [tauto|].
  apply emit_emitted.
Qed.

Lemma parse_lines_ok (lines : list string) (st : locals) :
  Forall emitted (entries st) ->
  exists st', parse_lines st lines = Ok st' /\ Forall emitted (entries st').
Proof.
  revert st. induction lines as [|l lines IH]; intros st Hst; simpl.
  - now exists st.
  - destruct (parse_line_ok st l) as [st1 [-> Heff]]. simpl.
    apply IH. destruct Heff as [E | E _]; rewrite E; [|assumption].
    now apply close_block_emitted.
Qed.

Lemma candidates_ok (text : string) :
  exists cs, candidates text = Ok cs /\ Forall emitted cs.
Proof.
  unfold candidates.
  destruct (parse_lines_ok (splitlines text) initial) as [st [-> Hst]];
    [constructor|].
  simpl. eexists; split; [reflexivity | now apply close_block_emitted].
Qed.

Lemma parse_text_ok (text : string) :
  exists cs, candidates text = Ok cs /\ Forall emitted cs /\
    parse_text text = Ok (PyList.sort sort_key key_leb (dedupe [] cs)).
Proof.
  destruct (candidates_ok text) as [cs [E H]]. exists cs.
  unfold parse_text. rewrite E. simpl. auto.
Qed.
End ParserFacts.

(* ================================================================== *)
(** * Small runs of the embedded code *)
(* ================================================================== *)

Example lower_ex : PyStr.lower "Kitty Theme: X" = "kitty theme: x".
Proof. reflexivity. Qed.

Example strip_ex : PyStr.strip "  a b  " = "a b".
Proof. reflexivity. Qed.

Example split_ex : PyStr.split "  alpha   beta " = ["alpha"; "beta"].
Proof. reflexivity. Qed.

Example split_maxsplit1_ex :
  PyStr.split_maxsplit1 "Host alpha  beta" = ["Host"; "alpha  beta"].
Proof. reflexivity. Qed.

Example splitlines_ex :
  PyStr.splitlines (Samples.lines ["a"; ""; "b"]) = ["a"; ""; "b"].
Proof. reflexivity. Qed.

Example splitlines_crlf_ex :
  PyStr.splitlines
    (String "a" (String "013" (String "010" (String "b" (String "013"
      (String "c" (String "010" (String "010" EmptyString))))))))
  = ["a"; "b"; "c"; ""].
Proof. reflexivity. Qed.

Example split_maxsplit1_rest_ex :
  PyStr.split_maxsplit1 "a  b c " = ["a"; "b c "]
  /\ PyStr.split_maxsplit1 "  a" = ["a"] /\ PyStr.split_maxsplit1 " " = [].
Proof. repeat split; reflexivity. Qed.

Example split_sep1_ex :
  PyStr.split_sep1 ":" "kitty theme=a:b" = ["kitty theme=a"; "b"]
  /\ PyStr.split_sep1 ":" "abc" = ["abc"].
Proof. repeat split; reflexivity. Qed.

Example stem_ex :
  theme_selector.stem ["r"; "a.b.conf"] = "a.b"
  /\ theme_selector.stem ["r"; ".conf"] = ".conf"
  /\ theme_selector.stem ["r"; "a."] = "a."
  /\ theme_selector.stem [] = "".
Proof. repeat split; reflexivity. Qed.

Example sorted_paths_ex :
  theme_selector.sorted_paths [["r"; "a-b"; "x.conf"]; ["r"; "a"; "x.conf"]; ["r"; "Zen.conf"]]
  = [["r"; "Zen.conf"]; ["r"; "a"; "x.conf"]; ["r"; "a-b"; "x.conf"]].
Proof. reflexivity. Qed.

Example two_blocks_ex :
  ssh_host_selector.parse_text Samples.two_blocks
  = Ok [("ann@web", "web", None); ("bob@db", "db", None)].
Proof. reflexivity. Qed.

Example collect_themes_ex :
  theme_selector.collect_themes (Samples.with_dir Samples.theme_files Samples.bare)
    Samples.kitty_dir
  = [("a/one", Samples.kitty_dir ++ ["a"; "one.conf"]);
     ("Zen", Samples.kitty_dir ++ ["Zen.conf"])].
Proof. reflexivity. Qed.

(* ================================================================== *)
(** * The parsers: order, uniqueness, wild card, totality *)
(* ================================================================== *)

Lemma StronglySorted_weaken {A : Type} (R S : A -> A -> Prop) (l : list A) :
  (forall a b, R a b -> S a b) -> StronglySorted R l -> StronglySorted S l.
Proof.
  intros HRS H. induction H; constructor; [assumption|].
  eapply Forall_impl; [|eassumption]. intros b. apply HRS.
Qed.

Lemma StronglySorted_first_occurrences {A : Type} (R : A -> A -> Prop)
    (key : A -> string) (seen : list string) (l : list A) :
  StronglySorted R l -> StronglySorted R (PyList.first_occurrences key seen l).
Proof.
  intros H. revert seen. induction H as [|x l Hs IH Hx]; intros seen; simpl;
    [constructor|].
  destruct (PyList.mem (key x) seen); [apply IH|].
  constructor; [apply IH|].
  rewrite Forall_forall in *. intros y Hy. apply Hx.
  eapply first_occurrences_incl; eassumption.
Qed.

Lemma StronglySorted_map {A B : Type} (R : B -> B -> Prop) (f : A -> B) (l : list A) :
  StronglySorted (fun a b => R (f a) (f b)) l -> StronglySorted R (map f l).
Proof.
  intros H. induction H; simpl; constructor; [assumption|].
  now apply Forall_map.
Qed.

Lemma key_leb_host_order (a b : ssh_host_selector.entry) :
  ssh_host_selector.key_leb (ssh_host_selector.sort_key a) (ssh_host_selector.sort_key b) = true ->
  host_order a b.
Proof.
  unfold ssh_host_selector.key_leb, ssh_host_selector.sort_key, host_order, String.ltb.
  simpl. destruct (String.compare _ _) eqn:E; try discriminate; intros H.
  - right. split; [now apply String.compare_eq_iff | assumption].
  - now left.
Qed.

Lemma parse_text_sorted (text : string) :
  exists l, ssh_host_selector.parse_text text = Ok l /\ StronglySorted host_order l.
Proof.
  destruct (ParserFacts.parse_text_ok text) as [cs [_ [_ E]]].
  eexists; split; [exact E|].
  eapply StronglySorted_weaken; [exact key_leb_host_order|].
  apply sort_sorted; [exact key_leb_total | exact key_leb_trans].
Qed.

Lemma collect_themes_sorted (w : os) (config_dir : Path) :
  StronglySorted theme_order (theme_selector.collect_themes w config_dir).
Proof.
  unfold theme_selector.collect_themes.
  destruct (negb (is_dir w config_dir)); [constructor|].
  eapply StronglySorted_weaken;
    [|apply (sort_stable theme_selector.sort_key String.leb String.leb_total
               string_leb_trans
               (fun a b => theme_selector.path_leb (snd a) (snd b) = true))].
  - intros a b [H1 H2]. unfold theme_order. cbv zeta.
    destruct (string_ltb_or_eq _ _ H1) as [Hlt | Heq]; [now left|].
    right. split; [exact Heq|]. apply H2.
    unfold theme_selector.sort_key in *. rewrite Heq. apply string_leb_refl.
  - rewrite scan_first_occurrences. apply StronglySorted_map. simpl.
    apply StronglySorted_first_occurrences.
    apply (sort_sorted (fun p : Path => p) theme_selector.path_leb
             path_leb_total path_leb_trans).
Qed.

(** Whatever holds of the empty list and of every parsed text holds of
    what [parse_ssh_config] returns. *)
Lemma parsed_of_text (w : os) (config_path : Path)
    (P : list ssh_host_selector.entry -> Prop) :
  P [] ->
  (forall text out, ssh_host_selector.parse_text text = Ok out -> P out) ->
  parsed w config_path P.
Proof.
  intros Hnil Htext. unfold parsed, ssh_host_selector.parse_ssh_config.
  destruct (is_file w config_path) as [[|]|e]; simpl; [|exact Hnil | reflexivity].
  destruct (read_text w config_path) as [text|]; [|exact Hnil].
  destruct (ParserFacts.parse_text_ok text) as [cs [_ [_ E]]].
  rewrite E. now apply (Htext text).
Qed.

(** C4, as the code has it.  The full list is ordered by lower-cased
    [display_label].  Among hosts with equal lower-cased labels the order
    is that of [target_key], the alias.  Among themes with equal
    lower-cased labels the order is that of the [Path] objects, compared
    component by component, which the stable sort inherits from the
    sorted directory walk.  This holds for every file content and for
    every order in which the walk reports the files. *)
Theorem C4_full_list_sorted :
  (forall (w : os) (config_path : Path),
      parsed w config_path (StronglySorted host_order))
  /\
  (forall text : string,
      exists l, ssh_host_selector.parse_text text = Ok l /\ StronglySorted host_order l)
  /\
  (forall (w : os) (config_dir : Path),
      StronglySorted theme_order (theme_selector.collect_themes w config_dir)).
Proof.
  split; [|split].
  - intros w config_path. apply parsed_of_text; [constructor|].
    intros text out E. destruct (parse_text_sorted text) as [l [El Hl]].
    rewrite E in El. injection El as <-. exact Hl.
  - exact parse_text_sorted.
  - exact collect_themes_sorted.
Qed.

(** C4 fails as stated for themes: [sub.conf] and [sub/..conf] both get
    the label [sub]; the list has [sub/..conf] first, as the order of
    paths has it, although the serialized path of [sub.conf] is the
    smaller string. *)
Lemma C4_tie_not_by_serialized_path_counterexample :
  let out := theme_selector.collect_themes
               (Samples.with_dir MoreSamples.same_label_files Samples.bare)
               Samples.kitty_dir in
  out = [("sub", Samples.kitty_dir ++ ["sub"; "..conf"]);
         ("sub", Samples.kitty_dir ++ ["sub.conf"])]
  /\ map (fun e => theme_selector.str_of_path (theme_selector.target_key e)) out
     = ["/home/u/.config/kitty/sub/..conf"; "/home/u/.config/kitty/sub.conf"]
  /\ ~ StronglySorted theme_order_by_string out.
Proof.
  cbv zeta.
  assert (E : theme_selector.collect_themes
                (Samples.with_dir MoreSamples.same_label_files Samples.bare)
                Samples.kitty_dir
              = [("sub", Samples.kitty_dir ++ ["sub"; "..conf"]);
                 ("sub", Samples.kitty_dir ++ ["sub.conf"])]) by reflexivity.
  rewrite E. split; [reflexivity|]. split; [reflexivity|].
  intros H. apply StronglySorted_inv in H. destruct H as [_ H].
  apply Forall_inv in H. destruct H as [Hlt | [_ Hle]].
  - vm_compute in Hlt. discriminate Hlt.
  - vm_compute in Hle. discriminate Hle.
Qed.

(** Hosts: the aliases of the parsed list are pairwise distinct;
    each entry is the first candidate, in block order, that carries its
    alias; every declared alias is represented. *)
Lemma parse_text_unique (text : string) :
  exists cs out,
    ssh_host_selector.candidates text = Ok cs /\
    ssh_host_selector.parse_text text = Ok out /\
    NoDup (map ssh_host_selector.target_key out) /\
    (forall e, In e out ->
       exists pre post, cs = pre ++ e :: post /\
         Forall (fun c => ssh_host_selector.target_key c <> ssh_host_selector.target_key e) pre) /\
    (forall c, In c cs ->
       exists e, In e out /\ ssh_host_selector.target_key e = ssh_host_selector.target_key c).
Proof.
  destruct (ParserFacts.parse_text_ok text) as [cs [Ec [_ Ep]]].
  exists cs. eexists. split; [exact Ec|]. split; [exact Ep|].
  rewrite dedupe_first_occurrences.
  set (fo := PyList.first_occurrences ssh_host_selector.target_key [] cs).
  assert (Hperm := sort_perm ssh_host_selector.sort_key ssh_host_selector.key_leb fo).
  split; [|split].
  - eapply Permutation_NoDup; [apply Permutation_map; symmetry; exact Hperm|].
    apply first_occurrences_NoDup.
  - intros e He. apply (Permutation_in _ Hperm) in He.
    eapply first_occurrences_first; exact He.
  - intros c Hc.
    destruct (first_occurrences_complete ssh_host_selector.target_key [] cs c Hc)
      as [e [He Ee]]; [intros []|].
    exists e. split; [|exact Ee].
    apply (Permutation_in _ (Permutation_sym Hperm)). exact He.
Qed.

Lemma stem_snd_NoDup (l : list Path) :
  NoDup (map theme_selector.stem l) -> NoDup l.
Proof.
  induction l as [|p l IH]; simpl; intros H; [constructor|].
  inversion H as [|? ? Hn Hd]; subst. constructor; [|now apply IH].
  intros Hin. apply Hn. now apply in_map.
Qed.

(** Themes: the paths (and the stems) of the collected list are
    pairwise distinct; each entry is the first path of the sorted walk
    that has its stem; every stem found is represented. *)
Lemma collect_themes_unique (w : os) (config_dir : Path) :
  let walk := theme_selector.sorted_paths (rglob_conf w config_dir) in
  let out := theme_selector.collect_themes w config_dir in
  NoDup (map theme_selector.target_key out) /\
  NoDup (map (fun e => theme_selector.stem (theme_selector.target_key e)) out) /\
  (forall e, In e out ->
     exists pre post, walk = pre ++ theme_selector.target_key e :: post /\
       Forall (fun p => theme_selector.stem p
                        <> theme_selector.stem (theme_selector.target_key e)) pre) /\
  (is_dir w config_dir = true ->
   forall p, In p walk ->
     exists e, In e out /\
       theme_selector.stem (theme_selector.target_key e) = theme_selector.stem p).
Proof.
  intros walk out. subst out. unfold theme_selector.collect_themes.
  destruct (is_dir w config_dir); simpl.
  2:{ repeat split; try constructor; try easy. }
  fold walk. rewrite scan_first_occurrences.
  set (fo := PyList.first_occurrences theme_selector.stem [] walk).
  set (mk := fun p : Path =>
               (theme_selector.display_of config_dir p (theme_selector.stem p), p)).
  assert (Hperm := sort_perm theme_selector.sort_key String.leb (map mk fo)).
  assert (Hkeys : map theme_selector.target_key (map mk fo) = fo).
  { rewrite map_map. simpl. apply map_id. }
  assert (Hstems : NoDup (map theme_selector.stem fo))
    by apply first_occurrences_NoDup.
  split; [|split; [|split]].
  - eapply Permutation_NoDup; [apply Permutation_map; symmetry; exact Hperm|].
    rewrite Hkeys. now apply stem_snd_NoDup.
  - eapply Permutation_NoDup; [apply Permutation_map; symmetry; exact Hperm|].
    rewrite map_map. simpl. exact Hstems.
  - intros e He. apply (Permutation_in _ Hperm) in He.
    apply in_map_iff in He. destruct He as [p [<- Hp]]. simpl.
    eapply first_occurrences_first; exact Hp.
  - intros _ p Hp.
    destruct (first_occurrences_complete theme_selector.stem [] walk p Hp)
      as [q [Hq Eq]]; [intros []|].
    exists (mk q). split; [|exact Eq].
    apply (Permutation_in _ (Permutation_sym Hperm)). now apply in_map.
Qed.

(** C6. Scenario A yields exactly [root@alpha] and [root@beta], both
    with metadata [dracula] and nothing for the wild card; and for every
    input, no candidate and no entry of the parsed list has the
    identifier [*] as its [target_key]. *)
Theorem C6_scenario_A_and_wildcard :
  ssh_host_selector.parse_ssh_config
    (Samples.with_file Samples.scenario_A Samples.bare) Samples.ssh_config
  = Ok [("root@alpha", "alpha", Some "dracula"); ("root@beta", "beta", Some "dracula")]
  /\
  (forall text : string,
      exists cs out,
        ssh_host_selector.candidates text = Ok cs /\
        ssh_host_selector.parse_text text = Ok out /\
        Forall (fun e => ssh_host_selector.target_key e <> "*") cs /\
        Forall (fun e => ssh_host_selector.target_key e <> "*") out)
  /\
  (forall (w : os) (config_path : Path),
      parsed w config_path (Forall (fun e => ssh_host_selector.target_key e <> "*"))).
Proof.
  assert (Htext : forall text : string,
             exists cs out,
               ssh_host_selector.candidates text = Ok cs /\
               ssh_host_selector.parse_text text = Ok out /\
               Forall (fun e => ssh_host_selector.target_key e <> "*") cs /\
               Forall (fun e => ssh_host_selector.target_key e <> "*") out).
  { intros text. destruct (ParserFacts.parse_text_ok text) as [cs [Ec [H E]]].
    exists cs. eexists. split; [exact Ec|]. split; [exact E|].
    assert (Hcs : Forall (fun e => ssh_host_selector.target_key e <> "*") cs)
      by (eapply Forall_impl; [|exact H]; now intros e [He _]).
    split; [exact Hcs|].
    apply Forall_forall. intros e He.
    apply sort_In in He. rewrite dedupe_first_occurrences in He.
    apply first_occurrences_incl in He.
    rewrite Forall_forall in Hcs. now apply Hcs. }
  split; [reflexivity|]. split; [exact Htext|].
  intros w config_path. apply parsed_of_text; [constructor|].
  intros text out E. destruct (Htext text) as [cs [out' [_ [E' [_ H]]]]].
  rewrite E in E'. injection E' as <-. exact H.
Qed.

(** C9, at the input where the code departs from it, and where it
    keeps it.  [config_path.is_file()] is called outside the [try]: when
    it raises (an [OSError] other than the few pathlib swallows, such as
    [PermissionError] for a directory that cannot be searched),
    [parse_ssh_config] raises the same exception instead of returning the
    empty list.  Whenever [is_file] answers, a list is returned: the
    empty one for a path that is not a file and for a read that raises
    [OSError], and the parsed one for every text, since the one indexing
    that could raise, [rest.split(sep, 1)[1]], always finds its element. *)
Theorem C9_parse_ssh_config_raises_with_is_file (w : os) (config_path : Path) :
  ssh_host_selector.parse_ssh_config MoreSamples.stat_denied Samples.ssh_config
  = Raise PermissionError /\
  (forall e, is_file w config_path = Raise e ->
   ssh_host_selector.parse_ssh_config w config_path = Raise e) /\
  (forall e, ssh_host_selector.parse_ssh_config w config_path = Raise e ->
   is_file w config_path = Raise e) /\
  (is_file w config_path = Ok false ->
   ssh_host_selector.parse_ssh_config w config_path = Ok []) /\
  (is_file w config_path = Ok true -> read_text w config_path = ReadOSError ->
   ssh_host_selector.parse_ssh_config w config_path = Ok []) /\
  (forall text, is_file w config_path = Ok true ->
     read_text w config_path = ReadText text ->
     exists l, ssh_host_selector.parse_text text = Ok l /\
               ssh_host_selector.parse_ssh_config w config_path = Ok l) /\
  (forall text, exists l, ssh_host_selector.parse_text text = Ok l).
Proof.
  assert (Htotal : forall text, exists l, ssh_host_selector.parse_text text = Ok l).
  { intros text. destruct (ParserFacts.parse_text_ok text) as [cs [_ [_ E]]]. eauto. }
  unfold ssh_host_selector.parse_ssh_config. repeat split.
  - now intros e ->.
  - intros e. destruct (is_file w config_path) as [[|]|e']; simpl.
    + destruct (read_text w config_path) as [text|]; [|discriminate].
      destruct (Htotal text) as [l ->]. discriminate.
    + discriminate.
    + congruence.
  - now intros ->.
  - now intros -> ->.
  - intros text -> ->. simpl. destruct (Htotal text) as [l E]. eauto.
  - exact Htotal.
Qed.

Lemma C9_is_file_witness :
  ssh_host_selector.parse_ssh_config MoreSamples.stat_denied Samples.ssh_config
  = Raise PermissionError
  /\ ssh_host_selector.parse_ssh_config Samples.bare Samples.ssh_config = Ok []
  /\ ssh_host_selector.parse_ssh_config
       (Samples.with_unreadable_file Samples.bare) Samples.ssh_config = Ok []
  /\ exists l,
       ssh_host_selector.parse_ssh_config
         (Samples.with_file Samples.two_blocks Samples.bare) Samples.ssh_config = Ok l.
Proof.
  split; [|split; [|split]].
  - apply (proj1 (proj2 (C9_parse_ssh_config_raises_with_is_file
                           MoreSamples.stat_denied Samples.ssh_config))).
    reflexivity.
  - apply (proj1 (proj2 (proj2 (proj2 (C9_parse_ssh_config_raises_with_is_file
                                          Samples.bare Samples.ssh_config))))).
    reflexivity.
  - apply (proj1 (proj2 (proj2 (proj2 (proj2 (C9_parse_ssh_config_raises_with_is_file
             (Samples.with_unreadable_file Samples.bare) Samples.ssh_config))))));
      reflexivity.
  - destruct (proj1 (proj2 (proj2 (proj2 (proj2 (proj2
               (C9_parse_ssh_config_raises_with_is_file
                  (Samples.with_file Samples.two_blocks Samples.bare)
                  Samples.ssh_config))))))
               Samples.two_blocks eq_refl eq_refl) as [l [_ E]].
    exists l. exact E.
Defined.

(** C7, at the input where the code departs from it.  The directive
    [kitty theme=a:b] has its first separator right after the keyword,
    so the value is [a:b]; the code picks [:] because one occurs
    somewhere in the text, and stores [b]. *)
Theorem C7_separator_not_first_occurrence :
  ssh_host_selector.parse_text (Samples.lines ["Host h"; "# kitty theme=a:b"])
  = Ok [("h", "h", Some "b")]
  /\ PyStr.split_sep1 "=" "kitty theme=a:b" = ["kitty theme"; "a:b"]
  /\ ssh_host_selector.parse_text (Samples.lines ["Host h"; "# kitty theme: a=b"])
     = Ok [("h", "h", Some "a=b")].
Proof. repeat split; reflexivity. Qed.

(* ================================================================== *)
(** * The configuration path *)
(* ================================================================== *)

Lemma lstrip_cases (s : string) :
  (blank s /\ PyStr.lstrip s = "") \/
  (~ blank s /\ exists c r, PyStr.lstrip s = String c r /\ PyStr.isspace c = false).
Proof.
  induction s as [|c s IH]; simpl.
  - left. split; [intros c [] | reflexivity].
  - destruct (PyStr.isspace c) eqn:E.
    + destruct IH as [[Hb El] | [Hn Hex]].
      * left. split; [|exact El]. intros d [<- | Hd]; [exact E | now apply Hb].
      * right. split; [|exact Hex]. intros Hb. apply Hn. intros d Hd. apply Hb. now right.
    + right. split; [|now exists c, s].
      intros Hb. specialize (Hb c (or_introl eq_refl)). congruence.
Qed.

Lemma rstrip_keeps_head (c : ascii) (r : string) :
  PyStr.isspace c = false -> PyStr.nonempty (PyStr.rstrip (String c r)) = true.
Proof.
  intros E. simpl. destruct (PyStr.rstrip r); [now rewrite E | reflexivity].
Qed.

Lemma strip_blank (s : string) : blank s -> PyStr.strip s = "".
Proof.
  intros Hb. unfold PyStr.strip.
  destruct (lstrip_cases s) as [[_ ->] | [Hn _]]; [reflexivity | contradiction].
Qed.

Lemma strip_not_blank (s : string) :
  ~ blank s -> PyStr.nonempty (PyStr.strip s) = true.
Proof.
  intros Hn. unfold PyStr.strip.
  destruct (lstrip_cases s) as [[Hb _] | [_ [c [r [-> E]]]]]; [contradiction|].
  now apply rstrip_keeps_head.
Qed.

(** C8, as the code has it.  Hosts: an unset or blank [SSH_CONFIG_ENV]
    gives [~/.ssh/config], any other value gives the path named by the
    value with surrounding white space removed.  Themes: an unset or
    empty [KITTY_CONFIG_DIRECTORY] gives [~/.config/kitty], every
    non-empty value is used as it stands, white space included. *)
Theorem C8_config_path_resolution (w : os) :
  (environ w "SSH_CONFIG_ENV" = None ->
   ssh_host_selector.get_ssh_config_path w = home w ++ [".ssh"; "config"]) /\
  (forall v, environ w "SSH_CONFIG_ENV" = Some v -> blank v ->
   ssh_host_selector.get_ssh_config_path w = home w ++ [".ssh"; "config"]) /\
  (forall v, environ w "SSH_CONFIG_ENV" = Some v -> ~ blank v ->
   ssh_host_selector.get_ssh_config_path w = resolve w (PyStr.strip v)) /\
  (environ w "KITTY_CONFIG_DIRECTORY" = None ->
   theme_selector.get_kitty_config_dir w = home w ++ [".config"; "kitty"]) /\
  (environ w "KITTY_CONFIG_DIRECTORY" = Some "" ->
   theme_selector.get_kitty_config_dir w = home w ++ [".config"; "kitty"]) /\
  (forall v, environ w "KITTY_CONFIG_DIRECTORY" = Some v -> v <> "" ->
   theme_selector.get_kitty_config_dir w = resolve w v).
Proof.
  unfold ssh_host_selector.get_ssh_config_path, theme_selector.get_kitty_config_dir.
  repeat split.
  - now intros ->.
  - intros v -> Hb. now rewrite (strip_blank v Hb).
  - intros v -> Hn. now rewrite (strip_not_blank v Hn).
  - now intros ->.
  - now intros ->.
  - intros v -> Hv. destruct v; [contradiction | reflexivity].
Qed.

Lemma not_blank_path : ~ blank " /etc/ssh/cfg ".
Proof.
  intros H. specialize (H "/"%char). simpl in H.
  assert (E : PyStr.isspace "/" = true) by (apply H; tauto).
  discriminate E.
Qed.

Lemma blank_spaces : blank "  ".
Proof. intros c [<- | [<- | []]]; reflexivity. Qed.

Lemma C8_resolution_witness :
  ssh_host_selector.get_ssh_config_path Samples.bare = ["home"; "u"; ".ssh"; "config"]
  /\ ssh_host_selector.get_ssh_config_path
       (Samples.with_environ "SSH_CONFIG_ENV" "  " Samples.bare)
     = ["home"; "u"; ".ssh"; "config"]
  /\ ssh_host_selector.get_ssh_config_path
       (Samples.with_environ "SSH_CONFIG_ENV" " /etc/ssh/cfg " Samples.bare)
     = ["cwd"; "/etc/ssh/cfg"]
  /\ theme_selector.get_kitty_config_dir Samples.bare
     = ["home"; "u"; ".config"; "kitty"]
  /\ theme_selector.get_kitty_config_dir
       (Samples.with_environ "KITTY_CONFIG_DIRECTORY" "" Samples.bare)
     = ["home"; "u"; ".config"; "kitty"]
  /\ theme_selector.get_kitty_config_dir
       (Samples.with_environ "KITTY_CONFIG_DIRECTORY" "/opt/kitty" Samples.bare)
     = ["cwd"; "/opt/kitty"].
Proof.
  split; [|split; [|split; [|split; [|split]]]].
  - apply (C8_config_path_resolution Samples.bare). reflexivity.
  - apply (proj1 (proj2 (C8_config_path_resolution
                           (Samples.with_environ "SSH_CONFIG_ENV" "  " Samples.bare)))
             "  " eq_refl blank_spaces).
  - apply (proj1 (proj2 (proj2 (C8_config_path_resolution
             (Samples.with_environ "SSH_CONFIG_ENV" " /etc/ssh/cfg " Samples.bare))))
             " /etc/ssh/cfg " eq_refl not_blank_path).
  - apply (proj1 (proj2 (proj2 (proj2 (C8_config_path_resolution Samples.bare))))).
    reflexivity.
  - apply (proj1 (proj2 (proj2 (proj2 (proj2 (C8_config_path_resolution
             (Samples.with_environ "KITTY_CONFIG_DIRECTORY" "" Samples.bare))))))).
    reflexivity.
  - apply (proj2 (proj2 (proj2 (proj2 (proj2 (C8_config_path_resolution
             (Samples.with_environ "KITTY_CONFIG_DIRECTORY" "/opt/kitty" Samples.bare))))))
             "/opt/kitty" eq_refl).
    discriminate.
Defined.

(** C8 fails as stated for themes: a white-space-only
    [KITTY_CONFIG_DIRECTORY] is blank, yet it is taken as the override
    and the default directory is not used. *)
Lemma C8_blank_override_counterexample :
  let w := Samples.with_environ "KITTY_CONFIG_DIRECTORY" "  " Samples.bare in
  blank "  " /\
  environ w "KITTY_CONFIG_DIRECTORY" = Some "  " /\
  theme_selector.get_kitty_config_dir w = resolve w "  " /\
  theme_selector.get_kitty_config_dir w <> home w ++ [".config"; "kitty"].
Proof.
  cbv zeta. split; [exact blank_spaces|]. split; [reflexivity|].
  split; [reflexivity | discriminate].
Qed.

(* ================================================================== *)
(** * The filter *)
(* ================================================================== *)

Lemma prefix_append (q s : string) :
  String.prefix q s = true <-> exists post, s = String.append q post.
Proof.
  revert s. induction q as [|a q IH]; intros s.
  - split; [intros _; now exists s | intros _; now destruct s].
  - destruct s as [|b s]; simpl.
    + split; [discriminate | intros [post E]; discriminate E].
    + destruct (ascii_dec a b) as [<- | N].
      * rewrite IH. split; intros [post E]; exists post; [now rewrite E | now injection E].
      * split; [discriminate | intros [post E]; injection E as Eab _; now elim N].
Qed.

Lemma contains_substring_of (q s : string) :
  PyStr.contains q s = true <-> substring_of q s.
Proof.
  unfold substring_of. induction s as [|c s IH]; cbn [PyStr.contains].
  - rewrite orb_false_r, prefix_append. split.
    + intros [post E]. now exists EmptyString, post.
    + intros [[|a pre] [post E]]; [now exists post | discriminate E].
  - rewrite orb_true_iff, prefix_append, IH. split.
    + intros [[post E] | [pre [post E]]].
      * now exists EmptyString, post.
      * exists (String c pre), post. simpl. now rewrite E.
    + intros [[|a pre] [post E]].
      * left. now exists post.
      * right. simpl in E. injection E as _ E. now exists pre, post.
Qed.

Lemma filter_selection {A : Type} (f : A -> bool) (P : A -> Prop) (l : list A) :
  (forall x, f x = true <-> P x) -> selection P l (filter f l).
Proof.
  intros H. induction l as [|x l IH]; simpl; [constructor|].
  destruct (f x) eqn:E.
  - apply selection_keep; [now apply H | exact IH].
  - apply selection_skip; [|exact IH]. intros Hp. apply H in Hp. congruence.
Qed.

Lemma selection_all {A : Type} (P : A -> Prop) (l : list A) :
  (forall x, P x) -> selection P l l.
Proof.
  intros H. induction l as [|x l IH]; [constructor | now apply selection_keep].
Qed.

Lemma substring_of_empty (s : string) : substring_of "" s.
Proof. now exists EmptyString, s. Qed.

(** C1, as the code has it.  The query is first stripped of surrounding
    white space and lower-cased; the filtered view then keeps, in the
    order of the full list, exactly the entries whose lower-cased label
    (for hosts: label or alias) contains it.  An empty query, and a blank
    one, gives the full list. *)
Theorem C1_filter_keeps_matching_entries :
  (forall (value : string) (app : ssh_host_selector.App),
      ssh_host_selector._filtered (ssh_host_selector.on_input_changed value app)
      = ssh_host_selector.filter_hosts value (ssh_host_selector.hosts app)
      /\ ssh_host_selector.hosts (ssh_host_selector.on_input_changed value app)
         = ssh_host_selector.hosts app
      /\ selection (host_matches (PyStr.lower (PyStr.strip value)))
           (ssh_host_selector.hosts app)
           (ssh_host_selector.filter_hosts value (ssh_host_selector.hosts app)))
  /\
  (forall (value : string) (app : theme_selector.App),
      theme_selector._filtered (theme_selector.on_input_changed value app)
      = theme_selector.filter_themes value (theme_selector.themes app)
      /\ theme_selector.themes (theme_selector.on_input_changed value app)
         = theme_selector.themes app
      /\ selection (theme_matches (PyStr.lower (PyStr.strip value)))
           (theme_selector.themes app)
           (theme_selector.filter_themes value (theme_selector.themes app)))
  /\
  (forall hosts, ssh_host_selector.filter_hosts "" hosts = hosts)
  /\
  (forall themes, theme_selector.filter_themes "" themes = themes).
Proof.
  split; [|split; [|split; reflexivity]].
  - intros value app. split; [reflexivity|]. split; [reflexivity|].
    unfold ssh_host_selector.filter_hosts.
    destruct (PyStr.lower (PyStr.strip value)) as [|c q] eqn:E; cbn [PyStr.nonempty negb].
    + apply selection_all. intros e. left. apply substring_of_empty.
    + apply filter_selection. intros e. unfold host_matches.
      now rewrite orb_true_iff, !contains_substring_of.
  - intros value app. split; [reflexivity|]. split; [reflexivity|].
    unfold theme_selector.filter_themes.
    destruct (PyStr.lower (PyStr.strip value)) as [|c q] eqn:E; cbn [PyStr.nonempty negb].
    + apply selection_all. intros e. apply substring_of_empty.
    + apply filter_selection. intros e. unfold theme_matches.
      now rewrite contains_substring_of.
Qed.

Lemma no_space_in_alpha (pre post : string) :
  "alpha" <> String.append pre (String.append " " post).
Proof.
  destruct pre as [|a [|b [|c [|d [|e [|f pre]]]]]]; simpl; try congruence;
    destruct post; simpl; congruence.
Qed.

(** C1 fails as stated: the query of one space is not a substring of
    [alpha], yet the filter keeps the entry, because the query is
    stripped before it is matched. *)
Lemma C1_query_is_stripped_counterexample :
  ssh_host_selector.filter_hosts " " [Samples.alpha] = [Samples.alpha]
  /\ ~ selection (host_matches (PyStr.lower " ")) [Samples.alpha]
         (ssh_host_selector.filter_hosts " " [Samples.alpha]).
Proof.
  split; [reflexivity|].
  intros H. inversion H as [| x l l' Hm _ | x l l' _ Hs]; subst.
  - destruct Hm as [[pre [post E]] | [pre [post E]]];
      exact (no_space_in_alpha pre post E).
  - inversion Hs.
Qed.

(* ================================================================== *)
(** * The launchers *)
(* ================================================================== *)

Module LauncherFacts.
Import ssh_host_selector.

(** Case analysis on one [subprocess.run]: the exit status, zero or
    not, or the exception raised. *)
Ltac run_cases w argv :=
  unfold tab_opened, tab_escaped, tab_failed, exits_zero, moves_on, escapes in *;
  let rc := fresh "rc" in
  let Erun := fresh "Erun" in
  let Erc := fresh "Erc" in
  destruct (run w argv) as [rc ? ? | []] eqn:Erun;
    [destruct (Z.eqb rc 0) eqn:Erc|..].

Ltac exec_cases w file argv :=
  let Eexec := fresh "Eexec" in
  destruct (execvp w file argv) as [|[]] eqn:Eexec.

Lemma timeout_is_recovered (w : os) (argv : list string) :
  run w argv = RunTimeout -> tab_failed w argv = true.
Proof. unfold tab_failed. now intros ->. Qed.

Lemma connect_after_failed_tab (w : os) (use_kitten : bool) (host_alias : string)
    (theme : option string) :
  tab_failed w (tab_argv use_kitten host_alias theme) = true ->
  exists rest,
    fst (_connect w use_kitten host_alias theme)
    = Ran (tab_argv use_kitten host_alias theme)
      :: first_exec use_kitten host_alias theme :: rest.
Proof.
  unfold _connect, tab_argv, first_exec. destruct use_kitten; intros H.
  - run_cases w (launch_prefix ++ kitten_ssh_argv host_alias theme);
      try discriminate H;
      exec_cases w "kitten" (kitten_ssh_argv host_alias theme);
      try (exec_cases w "ssh" ["ssh"; host_alias]);
      eexists; reflexivity.
  - run_cases w (launch_prefix ++ ["ssh"; host_alias]);
      try discriminate H;
      exec_cases w "ssh" ["ssh"; host_alias];
      eexists; reflexivity.
Qed.

Lemma try_commands_notes (w : os) (cmds : list (list string)) (last_err : option string) :
  match theme_selector.try_commands w last_err cmds with
  | (_, notes, Ok true) => notes = []
  | (_, notes, Ok false) => exists n, notes = [n] /\ level n = error /\ seconds n = 6
  | (_, notes, Raise _) => notes = []
  end.
Proof.
  revert last_err. induction cmds as [|cmd cmds IH]; intros last_err; simpl.
  - eexists; repeat split; reflexivity.
  - destruct (run w cmd) as [rc out err | []];
      try reflexivity; try (eexists; repeat split; reflexivity).
    + destruct (Z.eqb rc 0); [reflexivity|].
      specialize (IH (Some (theme_selector.error_text rc out err))).
      destruct (theme_selector.try_commands w _ cmds) as [[acts notes] r].
      exact IH.
    + specialize (IH last_err).
      destruct (theme_selector.try_commands w last_err cmds) as [[acts notes] r].
      exact IH.
Qed.
End LauncherFacts.

(** C3, as the code has it.  Connect: when the bounded wait of the tab
    attempt runs out, [_connect] goes on to the next strategy, the
    [os.execvp] of [kitten] (or of [ssh] in plain mode).  Apply theme: when
    the wait on [kitten @ set-colors] runs out, [_apply_theme] shows the
    time-out message and returns [False] at once; [kitty] is not tried. *)
Theorem C3_timeout_in_the_strategy_chain :
  (forall (w : os) (use_kitten : bool) (host_alias : string) (theme : option string),
      run w (tab_argv use_kitten host_alias theme) = RunTimeout ->
      exists rest,
        fst (ssh_host_selector._connect w use_kitten host_alias theme)
        = Ran (tab_argv use_kitten host_alias theme)
          :: first_exec use_kitten host_alias theme :: rest)
  /\
  (forall (w : os) (path : Path) (display : string),
      run w (theme_selector.set_colors "kitten" path) = RunTimeout ->
      theme_selector._apply_theme w path display
      = ([Ran (theme_selector.set_colors "kitten" path)],
         [theme_selector.timed_out], Ok false)).
Proof.
  split.
  - intros w use_kitten host_alias theme H.
    apply LauncherFacts.connect_after_failed_tab.
    now apply LauncherFacts.timeout_is_recovered.
  - intros w path display H. unfold theme_selector._apply_theme. simpl.
    now rewrite H.
Qed.

Lemma C3_timeout_witness :
  (exists rest,
     fst (ssh_host_selector._connect Samples.kitten_hangs true "web" (Some "dracula"))
     = Ran ["kitten"; "@"; "launch"; "--type=tab"; "--cwd"; "current";
            "kitten"; "ssh"; "--kitten"; "color_scheme=dracula"; "web"]
       :: Execed "kitten" ["kitten"; "ssh"; "--kitten"; "color_scheme=dracula"; "web"]
       :: rest)
  /\ theme_selector._apply_theme Samples.kitten_hangs (snd Samples.zen) "Zen"
     = ([Ran ["kitten"; "@"; "set-colors"; "-a"; "/home/u/.config/kitty/Zen.conf"]],
        [theme_selector.timed_out], Ok false).
Proof.
  split.
  - apply (proj1 C3_timeout_in_the_strategy_chain Samples.kitten_hangs true "web" (Some "dracula")).
    reflexivity.
  - apply (proj2 C3_timeout_in_the_strategy_chain Samples.kitten_hangs (snd Samples.zen) "Zen").
    reflexivity.
Defined.

(** C3 fails as stated for themes: after the time-out of the first
    program the second one, which would have succeeded, is never run. *)
Lemma C3_apply_theme_stops_counterexample :
  let path := snd Samples.zen in
  run Samples.kitten_hangs (theme_selector.set_colors "kitten" path) = RunTimeout
  /\ run Samples.kitten_hangs (theme_selector.set_colors "kitty" path) = RunExit 0 "" ""
  /\ ~ In (Ran (theme_selector.set_colors "kitty" path))
          (fst (fst (theme_selector._apply_theme Samples.kitten_hangs path "Zen")))
  /\ snd (theme_selector._apply_theme Samples.kitten_hangs path "Zen") = Ok false.
Proof.
  cbv zeta. split; [reflexivity|]. split; [reflexivity|]. split; [|reflexivity].
  vm_compute. intros [H | []]. discriminate H.
Qed.

(** C10. In plain-ssh mode [_connect] does not depend on the theme at
    all, and its two attempts carry the alias only.  In kitten mode every
    [os.execvp] of the [ssh] binary has the arguments [ssh alias], and it
    is what the call ends with when both kitten strategies are
    unavailable (the tab attempt failed in a way the code recovers from
    and [kitten] is not found).  The theme does appear in the kitten
    command line. *)
Theorem C10_theme_only_reaches_kitten :
  (forall (w : os) (host_alias : string) (theme : option string),
      ssh_host_selector._connect w false host_alias theme
      = ssh_host_selector._connect w false host_alias None
      /\ Forall (fun a => a = Ran (ssh_host_selector.launch_prefix ++ ["ssh"; host_alias])
                          \/ a = Execed "ssh" ["ssh"; host_alias])
           (fst (ssh_host_selector._connect w false host_alias theme)))
  /\
  (forall (w : os) (host_alias : string) (theme : option string),
      Forall (fun a => a = Ran (ssh_host_selector.launch_prefix
                                ++ ssh_host_selector.kitten_ssh_argv host_alias theme)
                       \/ a = Execed "kitten" (ssh_host_selector.kitten_ssh_argv host_alias theme)
                       \/ a = Execed "ssh" ["ssh"; host_alias])
        (fst (ssh_host_selector._connect w true host_alias theme)))
  /\
  (forall (w : os) (host_alias : string) (theme : option string),
      tab_failed w
        (ssh_host_selector.launch_prefix
         ++ ssh_host_selector.kitten_ssh_argv host_alias theme) = true ->
      execvp w "kitten" (ssh_host_selector.kitten_ssh_argv host_alias theme) = ExecNotFound ->
      last (fst (ssh_host_selector._connect w true host_alias theme)) (Ran [])
      = Execed "ssh" ["ssh"; host_alias])
  /\
  (forall (host_alias t : string),
      t <> "" ->
      ssh_host_selector.kitten_ssh_argv host_alias (Some t)
      = ["kitten"; "ssh"; "--kitten"; String.append "color_scheme=" t; host_alias]).
Proof.
  split; [|split; [|split]].
  - intros w host_alias theme. split; [reflexivity|].
    unfold ssh_host_selector._connect.
    destruct (ssh_host_selector.tab_opened w _);
      [|destruct (ssh_host_selector.tab_escaped w _);
        [|destruct (execvp w "ssh" _) as [|[]]]];
      cbn [fst]; repeat (apply Forall_cons; [auto|]); apply Forall_nil.
  - intros w host_alias theme. unfold ssh_host_selector._connect.
    destruct (ssh_host_selector.tab_opened w _);
      [|destruct (ssh_host_selector.tab_escaped w _);
        [|destruct (execvp w "kitten" _) as [|[]];
          try destruct (execvp w "ssh" _) as [|[]]]];
      cbn [fst]; repeat (apply Forall_cons; [auto|]); apply Forall_nil.
  - intros w host_alias theme Htab Hexec. unfold ssh_host_selector._connect.
    rewrite Hexec.
    LauncherFacts.run_cases w
      (ssh_host_selector.launch_prefix
       ++ ssh_host_selector.kitten_ssh_argv host_alias theme);
      try discriminate Htab;
      now destruct (execvp w "ssh" _) as [|[]].
  - intros host_alias t Ht. unfold ssh_host_selector.kitten_ssh_argv.
    destruct t; [contradiction | reflexivity].
Qed.

Lemma C10_theme_dropped_witness :
  last (fst (ssh_host_selector._connect Samples.bare true "web" (Some "dracula"))) (Ran [])
  = Execed "ssh" ["ssh"; "web"]
  /\ ssh_host_selector.kitten_ssh_argv "web" (Some "dracula")
     = ["kitten"; "ssh"; "--kitten"; "color_scheme=dracula"; "web"].
Proof.
  split.
  - apply (proj1 (proj2 (proj2 C10_theme_only_reaches_kitten))
             Samples.bare "web" (Some "dracula")); reflexivity.
  - apply (proj2 (proj2 (proj2 C10_theme_only_reaches_kitten)) "web" "dracula").
    discriminate.
Defined.

(* ================================================================== *)
(** * Confirming a selection *)
(* ================================================================== *)

Lemma valid_index_guard {A : Type} (idx : Z) (l : list A) :
  (0 <= idx < Z.of_nat (List.length l))%Z ->
  (idx <? 0)%Z || (Z.of_nat (List.length l) <=? idx)%Z = false.
Proof.
  intros [H1 H2]. apply orb_false_iff. split; [apply Z.ltb_ge | apply Z.leb_gt]; lia.
Qed.

(** C2, as the code has it.  On a valid index the launcher is run on
    the entry at that index.  Hosts: on success the picker shows
    [Connecting to ...] and exits; on failure it shows an error and keeps
    running.  Themes: on success the picker shows [Applied: ...], sets
    the status line and keeps running; on failure the launcher has shown
    one error and the picker keeps running.  On failure the filtered
    view and the list widget, with its highlighted index, are untouched.
    An exception the launcher does not catch leaves the handler as it
    left the launcher, with the picker as it was. *)
Theorem C2_selection_confirmed :
  (forall (w : os) (idx : Z) (app : ssh_host_selector.App)
          (display host_alias : string) (theme : option string),
      (0 <= idx < Z.of_nat (List.length (ssh_host_selector._filtered app)))%Z ->
      nth_error (ssh_host_selector._filtered app) (Z.to_nat idx)
        = Some (display, host_alias, theme) ->
      let launch :=
        ssh_host_selector._connect w (ssh_host_selector.use_kitten_ssh app) host_alias theme in
      let handled := ssh_host_selector.on_list_view_selected w idx app in
      fst handled = fst launch /\
      match snd launch with
      | ssh_host_selector.Returned true =>
          exists app', snd handled = ssh_host_selector.Returned app' /\
            ssh_host_selector.notifications app'
              = ssh_host_selector.notifications app
                ++ [ssh_host_selector.connecting display] /\
            ssh_host_selector.exited app' = true
      | ssh_host_selector.Returned false =>
          exists app', snd handled = ssh_host_selector.Returned app' /\
            ssh_host_selector.notifications app'
              = ssh_host_selector.notifications app ++ [ssh_host_selector.could_not_run] /\
            ssh_host_selector.exited app' = ssh_host_selector.exited app /\
            ssh_host_selector._filtered app' = ssh_host_selector._filtered app /\
            ssh_host_selector.host_list app' = ssh_host_selector.host_list app
      | ssh_host_selector.ImageReplaced =>
          snd handled = ssh_host_selector.ImageReplaced
      | ssh_host_selector.Raised e =>
          snd handled = ssh_host_selector.Raised e
      end)
  /\
  (forall (w : os) (idx : Z) (app : theme_selector.App) (display : string) (path : Path),
      (0 <= idx < Z.of_nat (List.length (theme_selector._filtered app)))%Z ->
      nth_error (theme_selector._filtered app) (Z.to_nat idx) = Some (display, path) ->
      let launch := theme_selector._apply_theme w path display in
      let handled := theme_selector.on_list_view_selected w idx app in
      let app' := snd (fst handled) in
      fst (fst handled) = fst (fst launch) /\
      theme_selector.exited app' = theme_selector.exited app /\
      theme_selector._filtered app' = theme_selector._filtered app /\
      theme_selector.theme_list app' = theme_selector.theme_list app /\
      match snd launch with
      | Ok true =>
          theme_selector.notifications app'
            = theme_selector.notifications app ++ [theme_selector.applied display] /\
          theme_selector.status app' = String.append "Current: " display /\
          snd handled = None
      | Ok false =>
          (exists n, level n = error /\
             theme_selector.notifications app'
               = theme_selector.notifications app ++ [n]) /\
          theme_selector.status app' = theme_selector.status app /\
          snd handled = None
      | Raise e => app' = app /\ snd handled = Some e
      end).
Proof.
  split.
  - intros w idx app display host_alias theme Hidx Hnth launch handled.
    subst handled. unfold ssh_host_selector.on_list_view_selected.
    rewrite (valid_index_guard idx _ Hidx), Hnth. fold launch.
    destruct launch as [acts [[|]| |e]]; simpl; split; try reflexivity;
      eexists; repeat split; reflexivity.
  - intros w idx app display path Hidx Hnth launch handled app'.
    subst app' handled. unfold theme_selector.on_list_view_selected.
    rewrite (valid_index_guard idx _ Hidx), Hnth. fold launch.
    assert (Hn := LauncherFacts.try_commands_notes w
                    [theme_selector.set_colors "kitten" path;
                     theme_selector.set_colors "kitty" path] None).
    fold (theme_selector._apply_theme w path display) in Hn. fold launch in Hn.
    destruct launch as [[acts notes] [[|]|e]]; simpl.
    + subst notes. repeat split; reflexivity.
    + destruct Hn as [n [-> [Hlevel _]]]. repeat split; try reflexivity.
      exists n. split; [exact Hlevel|]. now rewrite app_nil_r.
    + repeat split; reflexivity.
Qed.

Lemma C2_selection_witness :
  (exists app',
      snd (ssh_host_selector.on_list_view_selected Samples.all_tools 0
             (Samples.ssh_app true [Samples.web]))
        = ssh_host_selector.Returned app' /\
      ssh_host_selector.notifications app' = [ssh_host_selector.connecting "ann@web"] /\
      ssh_host_selector.exited app' = true)
  /\
  (exists n, level n = error /\
     theme_selector.notifications
       (snd (fst (theme_selector.on_list_view_selected Samples.bare 0
                    (Samples.theme_app [Samples.zen])))) = [n]).
Proof.
  split.
  - assert (H := proj1 C2_selection_confirmed Samples.all_tools 0%Z
                   (Samples.ssh_app true [Samples.web]) "ann@web" "web" (Some "dracula")).
    cbv zeta in H. destruct H as [_ H]; [simpl; lia | reflexivity |].
    exact H.
  - assert (H := proj2 C2_selection_confirmed Samples.bare 0%Z
                   (Samples.theme_app [Samples.zen]) "Zen" (snd Samples.zen)).
    cbv zeta in H. destruct H as [_ [_ [_ [_ H]]]]; [simpl; lia | reflexivity |].
    destruct H as [H _]. exact H.
Defined.

(** C2 fails as stated for themes: the launcher succeeds, the
    confirmation is shown, and the picker does not exit. *)
Lemma C2_theme_picker_stays_open_counterexample :
  let app := Samples.theme_app [Samples.zen] in
  let handled := theme_selector.on_list_view_selected Samples.all_tools 0 app in
  snd (theme_selector._apply_theme Samples.all_tools (snd Samples.zen) "Zen") = Ok true
  /\ theme_selector.notifications (snd (fst handled)) = [theme_selector.applied "Zen"]
  /\ theme_selector.exited (snd (fst handled)) = false
  /\ snd handled = None.
Proof. cbv zeta. repeat split; reflexivity. Qed.

(* ================================================================== *)
(** * Further properties: selection *)
(* ================================================================== *)

Lemma invalid_index_guard {A : Type} (idx : Z) (l : list A) :
  (idx < 0 \/ Z.of_nat (List.length l) <= idx)%Z ->
  (idx <? 0)%Z || (Z.of_nat (List.length l) <=? idx)%Z = true.
Proof.
  intros [H | H]; apply orb_true_iff; [left; apply Z.ltb_lt | right; apply Z.leb_le]; lia.
Qed.

(** X1. A selection event whose index is negative or not below the
    length of the filtered view does nothing in either picker: no
    process is started, nothing is shown, the picker state is the same. *)
Theorem X1_selection_out_of_range_is_noop (w : os) (idx : Z) :
  (forall app : ssh_host_selector.App,
      (idx < 0 \/ Z.of_nat (List.length (ssh_host_selector._filtered app)) <= idx)%Z ->
      ssh_host_selector.on_list_view_selected w idx app
      = ([], ssh_host_selector.Returned app))
  /\
  (forall app : theme_selector.App,
      (idx < 0 \/ Z.of_nat (List.length (theme_selector._filtered app)) <= idx)%Z ->
      theme_selector.on_list_view_selected w idx app = ([], app, None)).
Proof.
  split; intros app H.
  - unfold ssh_host_selector.on_list_view_selected.
    now rewrite (invalid_index_guard idx _ H).
  - unfold theme_selector.on_list_view_selected.
    now rewrite (invalid_index_guard idx _ H).
Qed.

Lemma X1_out_of_range_witness :
  ssh_host_selector.on_list_view_selected Samples.all_tools (-1)
    (Samples.ssh_app true [Samples.web])
  = ([], ssh_host_selector.Returned (Samples.ssh_app true [Samples.web]))
  /\ theme_selector.on_list_view_selected Samples.all_tools 1
       (Samples.theme_app [Samples.zen])
     = ([], Samples.theme_app [Samples.zen], None)
  /\ theme_selector.on_list_view_selected Samples.all_tools 0 (Samples.theme_app [])
     = ([], Samples.theme_app [], None).
Proof.
  split; [|split].
  - apply (proj1 (X1_selection_out_of_range_is_noop Samples.all_tools (-1))).
    left. lia.
  - apply (proj2 (X1_selection_out_of_range_is_noop Samples.all_tools 1)).
    right. simpl. lia.
  - apply (proj2 (X1_selection_out_of_range_is_noop Samples.all_tools 0)).
    right. simpl. lia.
Defined.



(* ================================================================== *)
(** * Further properties: the filter *)
(* ================================================================== *)

Lemma string_append_assoc (a b c : string) :
  String.append (String.append a b) c = String.append a (String.append b c).
Proof. induction a as [|x a IH]; simpl; [reflexivity | now rewrite IH]. Qed.

Lemma string_append_empty_r (a : string) : String.append a "" = a.
Proof. induction a as [|x a IH]; simpl; [reflexivity | now rewrite IH]. Qed.

Lemma substring_of_trans (a b c : string) :
  substring_of a b -> substring_of b c -> substring_of a c.
Proof.
  intros [p1 [q1 ->]] [p2 [q2 ->]].
  exists (String.append p2 p1), (String.append q1 q2).
  now rewrite !string_append_assoc.
Qed.

Lemma substring_of_refl (a : string) : substring_of a a.
Proof. exists EmptyString, EmptyString. simpl. now rewrite string_append_empty_r. Qed.

Lemma substring_of_empty_inv (a : string) : substring_of a "" -> a = "".
Proof.
  intros [[|x p] [q E]]; simpl in E; [|discriminate E].
  destruct a; [reflexivity | discriminate E].
Qed.

Lemma filter_filter_implied {A : Type} (f g : A -> bool) (l : list A) :
  (forall x, g x = true -> f x = true) -> filter g (filter f l) = filter g l.
Proof.
  intros H. induction l as [|x l IH]; simpl; [reflexivity|].
  destruct (f x) eqn:Ef; simpl.
  - destruct (g x); now rewrite IH.
  - destruct (g x) eqn:Eg; [apply H in Eg; congruence | exact IH].
Qed.

Lemma filter_hosts_narrows (v1 v2 : string) (hosts : list ssh_host_selector.entry) :
  substring_of (PyStr.lower (PyStr.strip v1)) (PyStr.lower (PyStr.strip v2)) ->
  ssh_host_selector.filter_hosts v2 (ssh_host_selector.filter_hosts v1 hosts)
  = ssh_host_selector.filter_hosts v2 hosts.
Proof.
  intros Hsub. unfold ssh_host_selector.filter_hosts.
  destruct (PyStr.lower (PyStr.strip v2)) as [|c2 q2] eqn:E2; cbn [PyStr.nonempty negb].
  - apply substring_of_empty_inv in Hsub. now rewrite Hsub.
  - destruct (PyStr.lower (PyStr.strip v1)) as [|c1 q1] eqn:E1; cbn [PyStr.nonempty negb];
      [reflexivity|].
    apply filter_filter_implied. intros e. rewrite !orb_true_iff, !contains_substring_of.
    intros [H | H]; [left | right]; eapply substring_of_trans; eassumption.
Qed.

Lemma filter_themes_narrows (v1 v2 : string) (themes : list theme_selector.entry) :
  substring_of (PyStr.lower (PyStr.strip v1)) (PyStr.lower (PyStr.strip v2)) ->
  theme_selector.filter_themes v2 (theme_selector.filter_themes v1 themes)
  = theme_selector.filter_themes v2 themes.
Proof.
  intros Hsub. unfold theme_selector.filter_themes.
  destruct (PyStr.lower (PyStr.strip v2)) as [|c2 q2] eqn:E2; cbn [PyStr.nonempty negb].
  - apply substring_of_empty_inv in Hsub. now rewrite Hsub.
  - destruct (PyStr.lower (PyStr.strip v1)) as [|c1 q1] eqn:E1; cbn [PyStr.nonempty negb];
      [reflexivity|].
    apply filter_filter_implied. intros e. rewrite !contains_substring_of.
    intros H. eapply substring_of_trans; eassumption.
Qed.

(** X3. Typing more narrows the view: when the normalised text of one
    query occurs inside the normalised text of a second one, filtering
    the full list by the second query gives the same view as filtering
    the first query's view by it.  In particular filtering twice by the
    same query changes nothing. *)
Theorem X3_longer_query_narrows_the_view :
  (forall (v1 v2 : string) (hosts : list ssh_host_selector.entry),
      substring_of (PyStr.lower (PyStr.strip v1)) (PyStr.lower (PyStr.strip v2)) ->
      ssh_host_selector.filter_hosts v2 (ssh_host_selector.filter_hosts v1 hosts)
      = ssh_host_selector.filter_hosts v2 hosts)
  /\
  (forall (v1 v2 : string) (themes : list theme_selector.entry),
      substring_of (PyStr.lower (PyStr.strip v1)) (PyStr.lower (PyStr.strip v2)) ->
      theme_selector.filter_themes v2 (theme_selector.filter_themes v1 themes)
      = theme_selector.filter_themes v2 themes)
  /\
  (forall (v : string) (hosts : list ssh_host_selector.entry),
      ssh_host_selector.filter_hosts v (ssh_host_selector.filter_hosts v hosts)
      = ssh_host_selector.filter_hosts v hosts)
  /\
  (forall (v : string) (themes : list theme_selector.entry),
      theme_selector.filter_themes v (theme_selector.filter_themes v themes)
      = theme_selector.filter_themes v themes).
Proof.
  split; [exact filter_hosts_narrows|]. split; [exact filter_themes_narrows|].
  split; intros v l.
  - apply filter_hosts_narrows, substring_of_refl.
  - apply filter_themes_narrows, substring_of_refl.
Qed.

Lemma X3_narrowing_witness :
  ssh_host_selector.filter_hosts " AL"
    (ssh_host_selector.filter_hosts "a" MoreSamples.three_hosts)
  = ssh_host_selector.filter_hosts " AL" MoreSamples.three_hosts.
Proof.
  apply (proj1 X3_longer_query_narrows_the_view "a" " AL" MoreSamples.three_hosts).
  exists EmptyString, "l". reflexivity.
Defined.

Lemma StronglySorted_filter {A : Type} (R : A -> A -> Prop) (f : A -> bool) (l : list A) :
  StronglySorted R l -> StronglySorted R (filter f l).
Proof.
  intros H. induction H as [|x l Hs IH Hx]; simpl; [constructor|].
  destruct (f x); [|exact IH]. constructor; [exact IH|].
  rewrite Forall_forall in *. intros y Hy. apply Hx.
  apply filter_In in Hy. tauto.
Qed.

Lemma NoDup_map_filter {A B : Type} (k : A -> B) (f : A -> bool) (l : list A) :
  NoDup (map k l) -> NoDup (map k (filter f l)).
Proof.
  induction l as [|x l IH]; simpl; intros H; [constructor|].
  inversion H as [|? ? Hn Hd]; subst.
  destruct (f x); simpl; [|now apply IH].
  constructor; [|now apply IH].
  intros Hin. apply Hn. apply in_map_iff in Hin. destruct Hin as [y [E Hy]].
  apply filter_In in Hy. apply in_map_iff. exists y. tauto.
Qed.

Lemma filter_hosts_as_filter (v : string) (hosts : list ssh_host_selector.entry) :
  exists f, ssh_host_selector.filter_hosts v hosts = filter f hosts /\
    forall e, f e = true -> host_matches (PyStr.lower (PyStr.strip v)) e.
Proof.
  unfold ssh_host_selector.filter_hosts.
  destruct (PyStr.lower (PyStr.strip v)) as [|c q] eqn:E; cbn [PyStr.nonempty negb].
  - exists (fun _ => true). split.
    + induction hosts as [|x l IH]; simpl; [reflexivity | now rewrite <- IH].
    + intros e _. left. apply substring_of_empty.
  - eexists. split; [reflexivity|]. intros e. unfold host_matches.
    now rewrite orb_true_iff, !contains_substring_of.
Qed.

Lemma filter_themes_as_filter (v : string) (themes : list theme_selector.entry) :
  exists f, theme_selector.filter_themes v themes = filter f themes /\
    forall e, f e = true -> theme_matches (PyStr.lower (PyStr.strip v)) e.
Proof.
  unfold theme_selector.filter_themes.
  destruct (PyStr.lower (PyStr.strip v)) as [|c q] eqn:E; cbn [PyStr.nonempty negb].
  - exists (fun _ => true). split.
    + induction themes as [|x l IH]; simpl; [reflexivity | now rewrite <- IH].
    + intros e _. apply substring_of_empty.
  - eexists. split; [reflexivity|]. intros e. unfold theme_matches.
    now rewrite contains_substring_of.
Qed.

(** X4. Parsing followed by filtering: for every file system, path and
    query, the filtered view of the parsed list is still ordered like the
    full list, still has pairwise distinct [target_key]s, and holds only
    entries of the full list.  The same for the theme list. *)
Theorem X4_filtered_view_sorted_and_unique :
  (forall (w : os) (config_path : Path) (value : string),
      parsed w config_path
        (fun full =>
           let view := ssh_host_selector.filter_hosts value full in
           StronglySorted host_order view /\
           NoDup (map ssh_host_selector.target_key view) /\
           incl view full /\ List.length view <= List.length full))
  /\
  (forall text value : string,
      exists full,
        ssh_host_selector.parse_text text = Ok full /\
        let view := ssh_host_selector.filter_hosts value full in
        StronglySorted host_order view /\
        NoDup (map ssh_host_selector.target_key view) /\
        incl view full /\ List.length view <= List.length full)
  /\
  (forall (w : os) (config_dir : Path) (value : string),
      let full := theme_selector.collect_themes w config_dir in
      let view := theme_selector.filter_themes value full in
      StronglySorted theme_order view /\
      NoDup (map theme_selector.target_key view) /\
      incl view full /\ List.length view <= List.length full).
Proof.
  assert (Hview : forall (value : string) (full : list ssh_host_selector.entry),
             StronglySorted host_order full ->
             NoDup (map ssh_host_selector.target_key full) ->
             let view := ssh_host_selector.filter_hosts value full in
             StronglySorted host_order view /\
             NoDup (map ssh_host_selector.target_key view) /\
             incl view full /\ List.length view <= List.length full).
  { intros value full Hs Hnd. cbv zeta.
    destruct (filter_hosts_as_filter value full) as [f [-> _]].
    split; [now apply StronglySorted_filter|].
    split; [now apply NoDup_map_filter|].
    split; [apply incl_filter | apply filter_length_le]. }
  assert (Htext : forall text out, ssh_host_selector.parse_text text = Ok out ->
             StronglySorted host_order out /\
             NoDup (map ssh_host_selector.target_key out)).
  { intros text out E.
    destruct (parse_text_unique text) as [cs [out1 [_ [E1 [Hnd _]]]]].
    destruct (parse_text_sorted text) as [out2 [E2 Hs]].
    rewrite E in E1, E2. injection E1 as <-. injection E2 as <-. now split. }
  split; [|split].
  - intros w config_path value. apply parsed_of_text.
    + apply Hview; constructor.
    + intros text out E. destruct (Htext text out E). now apply Hview.
  - intros text value. destruct (ParserFacts.parse_text_ok text) as [cs [_ [_ E]]].
    eexists. split; [exact E|]. destruct (Htext text _ E). now apply Hview.
  - intros w config_dir value full view. subst view.
    destruct (filter_themes_as_filter value full) as [f [-> _]].
    destruct (collect_themes_unique w config_dir) as [Hnd _].
    split; [apply StronglySorted_filter, collect_themes_sorted|].
    split; [now apply NoDup_map_filter|].
    split; [apply incl_filter | apply filter_length_le].
Qed.

(* ================================================================== *)
(** * Further properties: the launchers *)
(* ================================================================== *)

(** X5. How [_connect] ends.  It returns [True] exactly when the tab
    command exited with status 0, and then nothing else was attempted.
    An exception of the tab command other than [FileNotFoundError] and
    [TimeoutExpired] leaves [_connect] at once.  It returns [False]
    exactly when the tab attempt failed in a way it recovers from and
    every [os.execvp] of the mode raised [FileNotFoundError].  The tab
    command is always the first attempt and at most three attempts are
    made. *)
Theorem X5_connect_outcome (w : os) (use_kitten : bool) (host_alias : string)
    (theme : option string) :
  let tab := tab_argv use_kitten host_alias theme in
  let launch := ssh_host_selector._connect w use_kitten host_alias theme in
  let no_kitten :=
    use_kitten = true ->
    execvp w "kitten" (ssh_host_selector.kitten_ssh_argv host_alias theme) = ExecNotFound in
  let no_ssh := execvp w "ssh" ["ssh"; host_alias] = ExecNotFound in
  (snd launch = ssh_host_selector.Returned true <-> ssh_host_selector.tab_opened w tab = true) /\
  (ssh_host_selector.tab_opened w tab = true -> fst launch = [Ran tab]) /\
  (forall e, escapes w tab e -> launch = ([Ran tab], ssh_host_selector.Raised e)) /\
  (snd launch = ssh_host_selector.Returned false <->
     tab_failed w tab = true /\ no_kitten /\ no_ssh) /\
  (snd launch = ssh_host_selector.ImageReplaced -> tab_failed w tab = true) /\
  (forall e, snd launch = ssh_host_selector.Raised e ->
     escapes w tab e \/
     (tab_failed w tab = true /\ e <> FileNotFoundError /\
      (execvp w "kitten" (ssh_host_selector.kitten_ssh_argv host_alias theme) = ExecRaised e \/
       execvp w "ssh" ["ssh"; host_alias] = ExecRaised e))) /\
  hd (Ran []) (fst launch) = Ran tab /\
  List.length (fst launch) <= 3.
Proof.
  cbv zeta. unfold ssh_host_selector._connect, tab_argv.
  destruct use_kitten.
  - LauncherFacts.run_cases w
      (ssh_host_selector.launch_prefix
       ++ ssh_host_selector.kitten_ssh_argv host_alias theme);
      try (LauncherFacts.exec_cases w "kitten"
             (ssh_host_selector.kitten_ssh_argv host_alias theme);
           try LauncherFacts.exec_cases w "ssh" ["ssh"; host_alias]);
      simpl; repeat split; intros;
      repeat match goal with
             | H : _ /\ _ |- _ => destruct H
             | H : true = true -> _ |- _ => specialize (H eq_refl)
             end;
      try congruence; try lia;
      try (left; repeat split; congruence);
      try (right; repeat split; try congruence; (left; congruence) || (right; congruence)).
  - LauncherFacts.run_cases w (ssh_host_selector.launch_prefix ++ ["ssh"; host_alias]);
      try LauncherFacts.exec_cases w "ssh" ["ssh"; host_alias];
      simpl; repeat split; intros;
      repeat match goal with
             | H : _ /\ _ |- _ => destruct H
             end;
      try congruence; try lia;
      try (left; repeat split; congruence);
      try (right; repeat split; try congruence; right; congruence).
Qed.

Lemma X5_connect_outcome_witness :
  fst (ssh_host_selector._connect Samples.all_tools false "web" None)
  = [Ran ["kitten"; "@"; "launch"; "--type=tab"; "--cwd"; "current"; "ssh"; "web"]]
  /\ snd (ssh_host_selector._connect Samples.bare true "web" None)
     = ssh_host_selector.Returned false
  /\ ssh_host_selector._connect MoreSamples.kitten_denied true "web" None
     = ([Ran ["kitten"; "@"; "launch"; "--type=tab"; "--cwd"; "current";
              "kitten"; "ssh"; "web"]],
        ssh_host_selector.Raised PermissionError).
Proof.
  split; [|split].
  - apply (proj1 (proj2 (X5_connect_outcome Samples.all_tools false "web" None))).
    reflexivity.
  - apply (proj1 (proj2 (proj2 (proj2 (X5_connect_outcome Samples.bare true "web" None))))).
    split; [reflexivity | split; [intros _; reflexivity | reflexivity]].
  - apply (proj1 (proj2 (proj2 (X5_connect_outcome MoreSamples.kitten_denied true "web" None)))
             PermissionError).
    split; [reflexivity | split; discriminate].
Defined.

(** X6. How [_apply_theme] ends.  [kitten @ set-colors] is always run
    first; [kitty @ set-colors] is run exactly when [kitten] exited with a
    non-zero status or raised [FileNotFoundError]; nothing else is run.
    It returns [True] exactly when [kitten] exited with status 0, or
    [kitty] was run and exited with status 0.  An exception of either
    command other than [FileNotFoundError] and [TimeoutExpired] leaves
    [_apply_theme], and then nothing has been shown.  Returning [True]
    shows nothing; returning [False] shows exactly one error, for six
    seconds. *)
Theorem X6_apply_theme_outcome (w : os) (path : Path) (display : string) :
  let kitten := theme_selector.set_colors "kitten" path in
  let kitty := theme_selector.set_colors "kitty" path in
  let acts := fst (fst (theme_selector._apply_theme w path display)) in
  let notes := snd (fst (theme_selector._apply_theme w path display)) in
  let ended := snd (theme_selector._apply_theme w path display) in
  acts = Ran kitten :: (if moves_on w kitten then [Ran kitty] else []) /\
  (ended = Ok true <->
     exits_zero w kitten || (moves_on w kitten && exits_zero w kitty) = true) /\
  (forall e, ended = Raise e <->
     escapes w kitten e \/ (moves_on w kitten = true /\ escapes w kitty e)) /\
  (ended = Ok true -> notes = []) /\
  (ended = Ok false -> exists n, notes = [n] /\ level n = error /\ seconds n = 6) /\
  (forall e, ended = Raise e -> notes = []).
Proof.
  cbv zeta. unfold theme_selector._apply_theme.
  cbn [theme_selector.try_commands].
  LauncherFacts.run_cases w (theme_selector.set_colors "kitten" path);
    try LauncherFacts.run_cases w (theme_selector.set_colors "kitty" path);
    simpl; repeat split; intros;
    repeat match goal with
           | H : _ /\ _ |- _ => destruct H
           | H : _ \/ _ |- _ => destruct H
           end;
    try congruence;
    try (eexists; repeat split; reflexivity);
    try (left; repeat split; congruence);
    try (right; repeat split; congruence).
Qed.

Lemma X6_apply_theme_outcome_witness :
  snd (fst (theme_selector._apply_theme MoreSamples.kitty_only (snd Samples.zen) "Zen")) = []
  /\ (exists n,
       snd (fst (theme_selector._apply_theme Samples.bare (snd Samples.zen) "Zen")) = [n]
       /\ level n = error /\ seconds n = 6)
  /\ snd (theme_selector._apply_theme MoreSamples.kitten_denied (snd Samples.zen) "Zen")
     = Raise PermissionError.
Proof.
  split; [|split].
  - apply (proj1 (proj2 (proj2 (proj2
      (X6_apply_theme_outcome MoreSamples.kitty_only (snd Samples.zen) "Zen"))))).
    reflexivity.
  - apply (proj1 (proj2 (proj2 (proj2 (proj2
      (X6_apply_theme_outcome Samples.bare (snd Samples.zen) "Zen")))))).
    reflexivity.
  - apply (proj1 (proj2 (proj2
      (X6_apply_theme_outcome MoreSamples.kitten_denied (snd Samples.zen) "Zen")))
      PermissionError).
    left. split; [reflexivity | split; discriminate].
Defined.

(** X7. What [_apply_theme] tells the user when it returns [False].  A
    time-out of the program being waited for gives the time-out message.
    With no time-out, the message is the error text of the last program
    that exited with a non-zero status ([kitty] before [kitten]), and it
    is "Neither kitten nor kitty found in PATH" when there is no such
    text: both programs are missing, or the text is empty after
    stripping.  Here [kitty] is only reached when [kitten] exited with a
    non-zero status or was not found. *)
Theorem X7_apply_theme_failure_message (w : os) (path : Path) (display : string) :
  let kitten := theme_selector.set_colors "kitten" path in
  let kitty := theme_selector.set_colors "kitty" path in
  let notes := snd (fst (theme_selector._apply_theme w path display)) in
  let none_found := "Neither kitten nor kitty found in PATH" in
  let text_or_default (t : string) := if PyStr.nonempty t then t else none_found in
  (run w kitten = RunTimeout -> notes = [theme_selector.timed_out]) /\
  (moves_on w kitten = true -> run w kitty = RunTimeout ->
   notes = [theme_selector.timed_out]) /\
  (run w kitten = RunNotFound -> run w kitty = RunNotFound ->
   map message notes = [none_found]) /\
  (forall rc out err, moves_on w kitten = true ->
   run w kitty = RunExit rc out err -> rc <> 0%Z ->
   map message notes = [text_or_default (theme_selector.error_text rc out err)]) /\
  (forall rc out err, run w kitten = RunExit rc out err -> rc <> 0%Z ->
   run w kitty = RunNotFound ->
   map message notes = [text_or_default (theme_selector.error_text rc out err)]).
Proof.
  cbv zeta. unfold theme_selector._apply_theme.
  cbn [theme_selector.try_commands].
  repeat split.
  - now intros ->.
  - intros H Hk. LauncherFacts.run_cases w (theme_selector.set_colors "kitten" path);
      try discriminate H; rewrite Hk; reflexivity.
  - now intros -> ->.
  - intros rc out err H Hk Hrc. apply Z.eqb_neq in Hrc.
    LauncherFacts.run_cases w (theme_selector.set_colors "kitten" path);
      try discriminate H; rewrite Hk, Hrc; reflexivity.
  - intros rc out err -> Hrc ->. apply Z.eqb_neq in Hrc. now rewrite Hrc.
Qed.

Lemma X7_failure_message_witness :
  map message
    (snd (fst (theme_selector._apply_theme MoreSamples.kitty_refuses (snd Samples.zen) "Zen")))
  = ["no such window"]
  /\ map message
       (snd (fst (theme_selector._apply_theme Samples.bare (snd Samples.zen) "Zen")))
     = ["Neither kitten nor kitty found in PATH"]
  /\ snd (fst (theme_selector._apply_theme Samples.kitten_hangs (snd Samples.zen) "Zen"))
     = [theme_selector.timed_out].
Proof.
  split; [|split].
  - apply (proj1 (proj2 (proj2 (proj2
      (X7_apply_theme_failure_message MoreSamples.kitty_refuses (snd Samples.zen) "Zen"))))
      1%Z "" " no such window "); try reflexivity; discriminate.
  - apply (proj1 (proj2 (proj2
      (X7_apply_theme_failure_message Samples.bare (snd Samples.zen) "Zen"))));
      reflexivity.
  - apply (proj1 (X7_apply_theme_failure_message Samples.kitten_hangs (snd Samples.zen) "Zen")).
    reflexivity.
Defined.

Lemma connect_starts_with_tab (w : os) (use_kitten : bool) (host_alias : string)
    (theme : option string) :
  exists rest,
    fst (ssh_host_selector._connect w use_kitten host_alias theme)
    = Ran (tab_argv use_kitten host_alias theme) :: rest.
Proof.
  unfold ssh_host_selector._connect, tab_argv. destruct use_kitten.
  - destruct (ssh_host_selector.tab_opened w _);
      [|destruct (ssh_host_selector.tab_escaped w _);
        [|destruct (execvp w "kitten" _) as [|[]];
          try destruct (execvp w "ssh" _) as [|[]]]];
      eexists; reflexivity.
  - destruct (ssh_host_selector.tab_opened w _);
      [|destruct (ssh_host_selector.tab_escaped w _);
        [|destruct (execvp w "ssh" _) as [|[]]]];
      eexists; reflexivity.
Qed.

Lemma apply_theme_starts_with_kitten (w : os) (path : Path) (display : string) :
  exists rest,
    fst (fst (theme_selector._apply_theme w path display))
    = Ran (theme_selector.set_colors "kitten" path) :: rest.
Proof.
  unfold theme_selector._apply_theme.
  assert (H : forall last_err cmd cmds,
             exists rest,
               fst (fst (theme_selector.try_commands w last_err (cmd :: cmds)))
               = Ran cmd :: rest).
  { intros last_err cmd cmds. cbn [theme_selector.try_commands].
    destruct (run w cmd) as [rc out err | []]; [destruct (Z.eqb rc 0)|..];
      try (destruct (theme_selector.try_commands w _ cmds) as [[acts notes] r]);
      eexists; reflexivity. }
  apply H.
Qed.

(** X8. Filtering and then selecting: whenever a selection made after a
    filter change starts any process, the first command is the launcher's
    first strategy for an entry that belongs to the full list and matches
    the normalised query.  The picker never launches for an entry outside
    the full list or hidden by the filter. *)
Theorem X8_launch_targets_a_visible_entry (w : os) (value : string) (idx : Z) :
  (forall app : ssh_host_selector.App,
      let handled :=
        ssh_host_selector.on_list_view_selected w idx
          (ssh_host_selector.on_input_changed value app) in
      fst handled <> [] ->
      exists e rest,
        In e (ssh_host_selector.hosts app) /\
        host_matches (PyStr.lower (PyStr.strip value)) e /\
        nth_error (ssh_host_selector.filter_hosts value (ssh_host_selector.hosts app))
          (Z.to_nat idx) = Some e /\
        fst handled
        = Ran (tab_argv (ssh_host_selector.use_kitten_ssh app)
                 (ssh_host_selector.target_key e) (ssh_host_selector.metadata e)) :: rest)
  /\
  (forall app : theme_selector.App,
      let handled :=
        fst (theme_selector.on_list_view_selected w idx
               (theme_selector.on_input_changed value app)) in
      fst handled <> [] ->
      exists e rest,
        In e (theme_selector.themes app) /\
        theme_matches (PyStr.lower (PyStr.strip value)) e /\
        nth_error (theme_selector.filter_themes value (theme_selector.themes app))
          (Z.to_nat idx) = Some e /\
        fst handled
        = Ran (theme_selector.set_colors "kitten" (theme_selector.target_key e)) :: rest).
Proof.
  split.
  - intros app handled. subst handled.
    unfold ssh_host_selector.on_list_view_selected, ssh_host_selector.on_input_changed.
    cbn [ssh_host_selector._filtered ssh_host_selector.use_kitten_ssh].
    destruct (_ || _); [intros H; now elim H|].
    destruct (nth_error _ _) as [[[display host_alias] theme]|] eqn:Hnth;
      [|intros H; now elim H].
    intros _.
    assert (Hin := nth_error_In _ _ Hnth).
    destruct (filter_hosts_as_filter value (ssh_host_selector.hosts app)) as [f [Ef Hf]].
    rewrite Ef in Hin. apply filter_In in Hin. destruct Hin as [Hin Hfe].
    destruct (connect_starts_with_tab w (ssh_host_selector.use_kitten_ssh app)
                host_alias theme) as [rest Hrest].
    exists (display, host_alias, theme), rest.
    split; [exact Hin|]. split; [now apply Hf|]. split; [reflexivity|].
    destruct (ssh_host_selector._connect w _ host_alias theme) as [acts [[|]| |e]];
      simpl in *; exact Hrest.
  - intros app handled. subst handled.
    unfold theme_selector.on_list_view_selected, theme_selector.on_input_changed.
    cbn [theme_selector._filtered].
    destruct (_ || _); [intros H; now elim H|].
    destruct (nth_error _ _) as [[display path]|] eqn:Hnth; [|intros H; now elim H].
    intros _.
    assert (Hin := nth_error_In _ _ Hnth).
    destruct (filter_themes_as_filter value (theme_selector.themes app)) as [f [Ef Hf]].
    rewrite Ef in Hin. apply filter_In in Hin. destruct Hin as [Hin Hfe].
    destruct (apply_theme_starts_with_kitten w path display) as [rest Hrest].
    exists (display, path), rest.
    split; [exact Hin|]. split; [now apply Hf|]. split; [reflexivity|].
    destruct (theme_selector._apply_theme w path display) as [[acts notes] [ok|e]];
      simpl in *; exact Hrest.
Qed.

Lemma X8_visible_entry_witness :
  exists e rest,
    In e MoreSamples.three_hosts /\
    host_matches "gam" e /\
    nth_error (ssh_host_selector.filter_hosts " GAM " MoreSamples.three_hosts) 0 = Some e /\
    fst (ssh_host_selector.on_list_view_selected Samples.all_tools 0
           (ssh_host_selector.on_input_changed " GAM "
              (Samples.ssh_app true MoreSamples.three_hosts)))
    = Ran (tab_argv true (ssh_host_selector.target_key e) (ssh_host_selector.metadata e))
      :: rest.
Proof.
  apply (proj1 (X8_launch_targets_a_visible_entry Samples.all_tools " GAM " 0)
           (Samples.ssh_app true MoreSamples.three_hosts)).
  vm_compute. discriminate.
Defined.

(* ================================================================== *)
(** * Further properties: the host parser *)
(* ================================================================== *)

Module MoreParserFacts.
Import PyStr ssh_host_selector.

Lemma comment_line_frame (st : locals) (line : string) :
  exists st', comment_line st line = Ok st' /\
    entries st' = entries st /\ current_hosts st' = current_hosts st /\
    current_user st' = current_user st /\
    (current_theme st' = current_theme st \/
     exists t, t <> "" /\ current_theme st' = Some t).
Proof.
  unfold comment_line.
  destruct (startswith (lower (strip (drop1 line))) "kitty theme:"
            || startswith (lower (strip (drop1 line))) "kitty theme=") eqn:E.
  - apply ParserFacts.directive_has_separator in E.
    destruct (ParserFacts.split_sep1_two _ _ E) as [a [b ->]]. simpl.
    destruct (strip b) as [|c t] eqn:Eb; simpl; eexists; repeat split; auto.
    right. eexists. split; [|reflexivity]. discriminate.
  - eexists; repeat split; auto.
Qed.

(** A line that is not a header leaves the collected entries and the
    identifiers of the open block alone. *)
Lemma parse_line_body (st : locals) (raw_line : string) :
  is_header raw_line = false ->
  exists st', parse_line st raw_line = Ok st' /\
    entries st' = entries st /\ current_hosts st' = current_hosts st /\
    (current_theme st' = current_theme st \/
     exists t, t <> "" /\ current_theme st' = Some t).
Proof.
  unfold is_header, parse_line. intros ->.
  destruct (negb (nonempty (strip raw_line))); [eexists; repeat split; auto|].
  destruct (startswith (strip raw_line) "#").
  - destruct (comment_line_frame st (strip raw_line)) as [st' [E [H1 [H2 [_ H3]]]]].
    exists st'. auto.
  - destruct (split_maxsplit1 (strip raw_line)) as [|a [|b parts]]; simpl;
      try (eexists; repeat split; auto; fail).
    destruct (lower a =? "user")%string; eexists; repeat split; auto.
Qed.

(** What a header line does. *)
Lemma parse_line_header (st : locals) (raw_line : string) :
  is_header raw_line = true ->
  exists hosts,
    parse_line st raw_line
    = Ok {| entries := close_block st; current_hosts := hosts;
            current_user := None; current_theme := None |} /\
    (hosts = [] \/ exists p, hosts = split p).
Proof.
  unfold is_header, parse_line. intros ->.
  destruct (split_maxsplit1 (strip raw_line)) as [|a [|b parts]]; simpl;
    eexists; split; try reflexivity; auto.
  right. now exists b.
Qed.

Lemma in_append_char (w : string) (c d : ascii) :
  In d (list_ascii_of_string (String.append w (String c EmptyString))) ->
  In d (list_ascii_of_string w) \/ d = c.
Proof.
  induction w as [|x w IH]; simpl.
  - intros [-> | []]. now right.
  - intros [-> | H]; [left; now left|]. destruct (IH H); [left; now right | now right].
Qed.

Lemma split_from_words (s w : string) :
  whitespace_free w -> Forall word (split_from w s).
Proof.
  revert w. induction s as [|c s IH]; intros w Hw; simpl.
  - destruct w; simpl; constructor; [|constructor]. split; [discriminate | exact Hw].
  - destruct (isspace c) eqn:Ec.
    + apply Forall_app. split.
      * destruct w; simpl; constructor; [|constructor]. split; [discriminate | exact Hw].
      * apply IH. intros d [].
    + apply IH. intros d Hd. apply in_append_char in Hd.
      destruct Hd as [Hd | ->]; [now apply Hw | exact Ec].
Qed.

(** The words of [str.split] are non-empty and free of white space. *)
Lemma split_words (s : string) : Forall word (split s).
Proof. apply split_from_words. intros d []. Qed.

Lemma display_of_shape (user : option string) (alias : string) :
  display_of user alias = alias \/
  exists u, u <> "" /\ display_of user alias = String.append u (String.append "@" alias).
Proof.
  destruct user as [[|c u]|]; auto.
  right. exists (String c u). split; [discriminate | reflexivity].
Qed.

Lemma emit_well_formed (user theme : option string) (hs : list string) (acc : list entry) :
  theme_ok theme -> Forall word hs ->
  Forall well_formed acc -> Forall well_formed (emit user theme hs acc).
Proof.
  intros Ht. revert acc. induction hs as [|alias hs IH]; intros acc Hhs Hacc; simpl;
    [assumption|].
  inversion Hhs as [|? ? Hw Hhs']; subst.
  destruct (nonempty alias && negb (alias =? "*")%string) eqn:E; [|now apply IH].
  apply IH; [assumption|]. apply Forall_app. split; [assumption|].
  constructor; [|constructor].
  apply andb_true_iff in E. destruct E as [_ E2].
  apply negb_true_iff, String.eqb_neq in E2.
  unfold well_formed, target_key, display_label, metadata. simpl.
  split; [exact Hw|]. split; [exact E2|]. split; [apply display_of_shape | exact Ht].
Qed.

Lemma close_block_well_formed (st : locals) :
  loop_invariant st -> Forall well_formed (close_block st).
Proof.
  intros [He [Hh Ht]]. unfold close_block.
  destruct (current_hosts st) eqn:E; [assumption|].
  now apply emit_well_formed.
Qed.

Lemma parse_line_invariant (st : locals) (raw_line : string) :
  loop_invariant st ->
  exists st', parse_line st raw_line = Ok st' /\ loop_invariant st'.
Proof.
  intros Hinv. destruct (is_header raw_line) eqn:Eh.
  - destruct (parse_line_header st raw_line Eh) as [hosts [-> Hhosts]].
    eexists. split; [reflexivity|]. split; [|split]; simpl.
    + now apply close_block_well_formed.
    + destruct Hhosts as [-> | [p ->]]; [constructor | apply split_words].
    + now left.
  - destruct (parse_line_body st raw_line Eh) as [st' [-> [He [Hh Ht]]]].
    exists st'. split; [reflexivity|]. destruct Hinv as [H1 [H2 H3]].
    split; [now rewrite He|]. split; [now rewrite Hh|].
    destruct Ht as [-> | Ht]; [assumption | now right].
Qed.

Lemma parse_lines_invariant (lines : list string) (st : locals) :
  loop_invariant st ->
  exists st', parse_lines st lines = Ok st' /\ loop_invariant st'.
Proof.
  revert st. induction lines as [|l lines IH]; intros st Hinv; simpl.
  - now exists st.
  - destruct (parse_line_invariant st l Hinv) as [st1 [-> H1]]. simpl. now apply IH.
Qed.

Lemma parse_text_well_formed (text : string) :
  exists out, parse_text text = Ok out /\ Forall well_formed out.
Proof.
  unfold parse_text, candidates.
  destruct (parse_lines_invariant (splitlines text) initial) as [st [-> Hinv]].
  { split; [constructor|]. split; [constructor | now left]. }
  simpl. eexists. split; [reflexivity|].
  apply close_block_well_formed in Hinv.
  apply Forall_forall. intros e He. apply sort_In in He.
  rewrite dedupe_first_occurrences in He. apply first_occurrences_incl in He.
  rewrite Forall_forall in Hinv. now apply Hinv.
Qed.

Lemma parse_ssh_config_well_formed (w : os) (config_path : Path) :
  parsed w config_path (Forall well_formed).
Proof.
  apply parsed_of_text; [constructor|].
  intros text out E. destruct (parse_text_well_formed text) as [out' [E' H]].
  rewrite E in E'. injection E' as <-. exact H.
Qed.

Lemma parse_lines_no_header (lines : list string) (st : locals) :
  Forall (fun l => is_header l = false) lines ->
  exists st', parse_lines st lines = Ok st' /\
    entries st' = entries st /\ current_hosts st' = current_hosts st.
Proof.
  intros H. revert st. induction H as [|l lines Hl _ IH]; intros st; simpl.
  - now exists st.
  - destruct (parse_line_body st l Hl) as [st1 [-> [He [Hh _]]]]. simpl.
    destruct (IH st1) as [st' [E [He' Hh']]]. exists st'.
    split; [exact E|]. split; congruence.
Qed.

Lemma header_needs_prefix (line : string) :
  startswith line "#" = true -> startswith (lower line) "host " = false.
Proof.
  unfold startswith. destruct line as [|c r]; intros H; [discriminate H|].
  cbn [String.prefix] in H.
  destruct (ascii_dec "#" c) as [<- | _]; [reflexivity | discriminate H].
Qed.

Lemma parse_line_skipped (st : locals) (raw_line : string) :
  skipped raw_line -> parse_line st raw_line = Ok st.
Proof.
  unfold skipped, is_directive, parse_line. intros [E | [Hc Hd]].
  - rewrite E. reflexivity.
  - rewrite (header_needs_prefix _ Hc), Hc.
    destruct (strip raw_line) as [|c r] eqn:E; [discriminate Hc|].
    cbn [nonempty negb]. unfold comment_line. now rewrite Hd.
Qed.

Lemma parse_lines_skipped (before after : list string) (raw_line : string) (st : locals) :
  skipped raw_line ->
  parse_lines st (before ++ raw_line :: after) = parse_lines st (before ++ after).
Proof.
  intros Hs. revert st. induction before as [|l before IH]; intros st; simpl.
  - now rewrite (parse_line_skipped st raw_line Hs).
  - destruct (parse_line st l); simpl; [apply IH | reflexivity].
Qed.
End MoreParserFacts.

(** X9. Shape of every parsed host, for every file system and path:
    the alias is a non-empty word without white space and is not [*]; the
    label is the alias itself or [user@alias] with a non-empty user; the
    theme, when present, is not the empty string. *)
Theorem X9_parsed_hosts_well_formed (w : os) (config_path : Path) :
  parsed w config_path (Forall well_formed) /\
  forall text : string,
    exists out, ssh_host_selector.parse_text text = Ok out /\ Forall well_formed out.
Proof.
  split.
  - apply parsed_of_text; [constructor|].
    intros text out E.
    destruct (MoreParserFacts.parse_text_well_formed text) as [out' [E' H]].
    rewrite E in E'. injection E' as <-. exact H.
  - exact MoreParserFacts.parse_text_well_formed.
Qed.

(** X10. A file in which no line, once stripped and lower-cased, starts
    with [host ] followed by a blank yields no host at all: directives and
    comments outside a block are dropped.  The empty file is one case.
    Read through [parse_ssh_config], such a file gives the empty list
    whenever a list is returned. *)
Theorem X10_no_header_no_hosts (text : string) :
  Forall (fun l => is_header l = false) (PyStr.splitlines text) ->
  ssh_host_selector.parse_text text = Ok [] /\
  forall (w : os) (config_path : Path),
    read_text w config_path = ReadText text ->
    parsed w config_path (fun out => out = []).
Proof.
  intros H.
  assert (E : ssh_host_selector.parse_text text = Ok []).
  { unfold ssh_host_selector.parse_text, ssh_host_selector.candidates.
    destruct (MoreParserFacts.parse_lines_no_header _ ssh_host_selector.initial H)
      as [st [-> [He Hh]]].
    simpl. unfold ssh_host_selector.close_block. rewrite Hh, He. reflexivity. }
  split; [exact E|].
  intros w config_path Hr. unfold parsed, ssh_host_selector.parse_ssh_config.
  rewrite Hr, E. now destruct (is_file w config_path) as [[|]|e].
Qed.

Lemma X10_no_header_witness :
  ssh_host_selector.parse_text (Samples.lines ["  User root"; "# kitty theme: dracula"; "Hostname x"])
  = Ok []
  /\ ssh_host_selector.parse_text "" = Ok []
  /\ parsed (Samples.with_file "" Samples.bare) Samples.ssh_config (fun out => out = []).
Proof.
  split; [|split].
  - apply (X10_no_header_no_hosts
             (Samples.lines ["  User root"; "# kitty theme: dracula"; "Hostname x"])).
    vm_compute. repeat constructor.
  - apply (X10_no_header_no_hosts ""). vm_compute. constructor.
  - apply (proj2 (X10_no_header_no_hosts "" ltac:(vm_compute; constructor))
             (Samples.with_file "" Samples.bare) Samples.ssh_config).
    reflexivity.
Defined.

(** X11. Blank lines and comment lines that are not a [kitty theme]
    directive have no effect wherever they stand: the line loop ends in
    the same state, or with the same error, with or without such a line. *)
Theorem X11_skipped_lines_do_not_matter (before after : list string) (raw_line : string)
    (st : ssh_host_selector.locals) :
  skipped raw_line ->
  ssh_host_selector.parse_line st raw_line = Ok st /\
  ssh_host_selector.parse_lines st (before ++ raw_line :: after)
  = ssh_host_selector.parse_lines st (before ++ after).
Proof.
  intros H. split.
  - now apply MoreParserFacts.parse_line_skipped.
  - now apply MoreParserFacts.parse_lines_skipped.
Qed.

Lemma X11_skipped_lines_witness :
  ssh_host_selector.parse_lines ssh_host_selector.initial
    (["Host web"] ++ "  # User eve" :: ["  User ann"])
  = ssh_host_selector.parse_lines ssh_host_selector.initial (["Host web"] ++ ["  User ann"]).
Proof.
  apply (X11_skipped_lines_do_not_matter ["Host web"] ["  User ann"] "  # User eve"
           ssh_host_selector.initial).
  right. split; reflexivity.
Defined.

(** X12. Parsing and connecting: for every parsed host, the kitten
    command line is [kitten ssh alias] when the host has no theme and
    [kitten ssh --kitten color_scheme=THEME alias] when it has one; a
    theme read from the file is never dropped by the emptiness test of
    [_connect]. *)
Theorem X12_parsed_theme_reaches_kitten :
  let reaches (e : ssh_host_selector.entry) :=
    ssh_host_selector.kitten_ssh_argv
      (ssh_host_selector.target_key e) (ssh_host_selector.metadata e)
    = match ssh_host_selector.metadata e with
      | Some theme =>
          ["kitten"; "ssh"; "--kitten"; String.append "color_scheme=" theme;
           ssh_host_selector.target_key e]
      | None => ["kitten"; "ssh"; ssh_host_selector.target_key e]
      end in
  (forall (w : os) (config_path : Path), parsed w config_path (Forall reaches)) /\
  (forall text : string,
      exists out, ssh_host_selector.parse_text text = Ok out /\ Forall reaches out).
Proof.
  cbv zeta.
  assert (Hwf : forall out, Forall well_formed out ->
            Forall (fun e =>
              ssh_host_selector.kitten_ssh_argv
                (ssh_host_selector.target_key e) (ssh_host_selector.metadata e)
              = match ssh_host_selector.metadata e with
                | Some theme =>
                    ["kitten"; "ssh"; "--kitten"; String.append "color_scheme=" theme;
                     ssh_host_selector.target_key e]
                | None => ["kitten"; "ssh"; ssh_host_selector.target_key e]
                end) out).
  { intros out H. eapply Forall_impl; [|exact H].
    intros e [_ [_ [_ Hm]]]. unfold ssh_host_selector.kitten_ssh_argv.
    destruct Hm as [-> | [t [Ht ->]]]; [reflexivity|].
    destruct t; [contradiction | reflexivity]. }
  split.
  - intros w config_path. apply parsed_of_text; [constructor|].
    intros text out E.
    destruct (MoreParserFacts.parse_text_well_formed text) as [out' [E' H]].
    rewrite E in E'. injection E' as <-. now apply Hwf.
  - intros text. destruct (MoreParserFacts.parse_text_well_formed text) as [out [E H]].
    exists out. split; [exact E | now apply Hwf].
Qed.

(* ================================================================== *)
(** * Further properties: the theme collector *)
(* ================================================================== *)

Lemma path_leb_antisym (p q : Path) :
  theme_selector.path_leb p q = true -> theme_selector.path_leb q p = true -> p = q.
Proof.
  revert q. induction p as [|a p IH]; intros [|b q]; simpl; try discriminate;
    [reflexivity|].
  rewrite (String.compare_antisym b a).
  destruct (String.compare a b) eqn:E; simpl; try discriminate.
  apply String.compare_eq_iff in E. subst. intros H1 H2. f_equal. now apply IH.
Qed.

Lemma sorted_permutation_unique {A : Type} (R : A -> A -> Prop) (l1 l2 : list A) :
  (forall a b, R a b -> R b a -> a = b) ->
  StronglySorted R l1 -> StronglySorted R l2 -> Permutation l1 l2 -> l1 = l2.
Proof.
  intros Hanti H1. revert l2. induction H1 as [|x l1 Hs1 IH Hx]; intros l2 H2 Hp.
  - now apply Permutation_nil in Hp.
  - destruct H2 as [|y l2 Hs2 Hy].
    + apply Permutation_sym, Permutation_nil in Hp. discriminate Hp.
    + assert (Exy : x = y).
      { assert (Hxin : In x (y :: l2)) by (apply (Permutation_in _ Hp); now left).
        assert (Hyin : In y (x :: l1))
          by (apply (Permutation_in _ (Permutation_sym Hp)); now left).
        destruct Hxin as [-> | Hxin]; [reflexivity|].
        destruct Hyin as [-> | Hyin]; [reflexivity|].
        rewrite Forall_forall in Hx, Hy. apply Hanti; [now apply Hx | now apply Hy]. }
      subst y. f_equal. apply IH; [assumption|].
      now apply Permutation_cons_inv in Hp.
Qed.

Lemma sorted_paths_permutation (found found' : list Path) :
  Permutation found found' ->
  theme_selector.sorted_paths found = theme_selector.sorted_paths found'.
Proof.
  intros Hp. unfold theme_selector.sorted_paths.
  apply (sorted_permutation_unique (fun a b => theme_selector.path_leb a b = true)).
  - exact path_leb_antisym.
  - apply (sort_sorted (fun p : Path => p) theme_selector.path_leb
             path_leb_total path_leb_trans).
  - apply (sort_sorted (fun p : Path => p) theme_selector.path_leb
             path_leb_total path_leb_trans).
  - rewrite !sort_perm. exact Hp.
Qed.

(** X13. The collected theme list does not depend on the order in
    which the directory walk reports the files: two walks that report the
    same files, in any order, give the same list, entry for entry. *)
Theorem X13_collect_themes_ignores_walk_order (w w' : os) (config_dir : Path) :
  is_dir w config_dir = is_dir w' config_dir ->
  Permutation (rglob_conf w config_dir) (rglob_conf w' config_dir) ->
  theme_selector.collect_themes w config_dir = theme_selector.collect_themes w' config_dir.
Proof.
  intros Hd Hp. unfold theme_selector.collect_themes.
  rewrite Hd. destruct (negb (is_dir w' config_dir)); [reflexivity|].
  now rewrite (sorted_paths_permutation _ _ Hp).
Qed.

Lemma X13_walk_order_witness :
  theme_selector.collect_themes
    (Samples.with_dir Samples.theme_files Samples.bare) Samples.kitty_dir
  = theme_selector.collect_themes
      (Samples.with_dir MoreSamples.theme_files_again Samples.bare) Samples.kitty_dir.
Proof.
  apply X13_collect_themes_ignores_walk_order; [reflexivity|].
  unfold Samples.theme_files, MoreSamples.theme_files_again. simpl.
  eapply perm_trans; [apply perm_swap|].
  eapply perm_trans; [apply perm_skip, perm_swap|].
  eapply perm_trans; [apply perm_swap|].
  apply Permutation_refl.
Defined.

Lemma relative_to_app (base rel : Path) :
  theme_selector.relative_to (base ++ rel) base = Some rel.
Proof.
  induction base as [|b base IH]; simpl; [now destruct rel|].
  now rewrite String.eqb_refl.
Qed.

(** X14. Labels.  [relative_to] undoes the prefixing of a path by the
    configuration directory.  Hence a file directly in the directory is
    labelled by its stem alone, and a file in a sub-directory by the
    sub-directory components and the stem joined with slashes. *)
Theorem X14_theme_labels (config_dir : Path) :
  (forall rel, theme_selector.relative_to (config_dir ++ rel) config_dir = Some rel) /\
  (forall file st, theme_selector.display_of config_dir (config_dir ++ [file]) st = st) /\
  (forall sub subs file st,
      st <> "." -> st <> "" ->
      theme_selector.display_of config_dir (config_dir ++ (sub :: subs) ++ [file]) st
      = theme_selector.join ((sub :: subs) ++ [st])).
Proof.
  split; [intros rel; apply relative_to_app|]. split.
  - intros file st. unfold theme_selector.display_of. now rewrite relative_to_app.
  - intros sub subs file st Hdot Hempty. unfold theme_selector.display_of.
    rewrite relative_to_app, removelast_last.
    cbv beta iota. unfold theme_selector.joinpath.
    apply String.eqb_neq in Hdot. rewrite Hdot.
    destruct st; [contradiction | reflexivity].
Qed.

Lemma X14_theme_labels_witness :
  theme_selector.display_of Samples.kitty_dir
    (Samples.kitty_dir ++ ["themes"; "dark"] ++ ["Nord.conf"]) "Nord"
  = "themes/dark/Nord".
Proof.
  apply (proj2 (proj2 (X14_theme_labels Samples.kitty_dir)) "themes" ["dark"] "Nord.conf" "Nord");
    discriminate.
Defined.

Lemma first_occurrences_all {A : Type} (key : A -> string) (seen : list string)
    (l : list A) :
  NoDup (map key l) -> (forall x, In x l -> ~ In (key x) seen) ->
  PyList.first_occurrences key seen l = l.
Proof.
  revert seen. induction l as [|x l IH]; intros seen Hnd Hs; simpl; [reflexivity|].
  inversion Hnd as [|? ? Hn Hd]; subst.
  assert (E : PyList.mem (key x) seen = false)
    by (apply mem_not_In, Hs; now left).
  rewrite E. f_equal. apply IH; [assumption|].
  intros y Hy [Hk | Hk]; [|apply (Hs y); [now right | assumption]].
  apply Hn. rewrite Hk. now apply in_map.
Qed.

(** X15. What [collect_themes] returns.  A path that is not a directory
    gives the empty list.  Otherwise every entry is a reported file,
    labelled from its own path and stem; there are never more entries
    than files; and when all reported files have different stems, every
    file gets its entry. *)
Theorem X15_collect_themes_entries (w : os) (config_dir : Path) :
  let found := rglob_conf w config_dir in
  let out := theme_selector.collect_themes w config_dir in
  (is_dir w config_dir = false -> out = []) /\
  (forall e, In e out ->
     In (theme_selector.target_key e) found /\
     theme_selector.display_label e
     = theme_selector.display_of config_dir (theme_selector.target_key e)
         (theme_selector.stem (theme_selector.target_key e))) /\
  List.length out <= List.length found /\
  (is_dir w config_dir = true -> NoDup (map theme_selector.stem found) ->
   Permutation (map theme_selector.target_key out) found).
Proof.
  intros found out. subst out. unfold theme_selector.collect_themes.
  destruct (is_dir w config_dir); simpl.
  2:{ repeat split; try easy. lia. }
  fold found. rewrite scan_first_occurrences.
  set (walk := theme_selector.sorted_paths found).
  set (mk := fun p : Path =>
               (theme_selector.display_of config_dir p (theme_selector.stem p), p)).
  assert (Hwalk : Permutation walk found) by apply sort_perm.
  assert (Hperm := sort_perm theme_selector.sort_key String.leb
                     (map mk (PyList.first_occurrences theme_selector.stem [] walk))).
  split; [discriminate|]. split; [|split].
  - intros e He. apply (Permutation_in _ Hperm) in He.
    apply in_map_iff in He. destruct He as [p [<- Hp]]. simpl. split; [|reflexivity].
    apply (Permutation_in _ Hwalk). eapply first_occurrences_incl; exact Hp.
  - rewrite (Permutation_length Hperm), length_map, <- (Permutation_length Hwalk).
    clear. generalize (@nil string) as seen.
    induction walk as [|p walk IH]; intros seen; simpl; [lia|].
    destruct (PyList.mem _ seen); simpl.
    + specialize (IH seen). lia.
    + specialize (IH (theme_selector.stem p :: seen)). lia.
  - intros _ Hnd.
    assert (Hnd' : NoDup (map theme_selector.stem walk)).
    { eapply Permutation_NoDup; [|exact Hnd].
      apply Permutation_map, Permutation_sym, Hwalk. }
    rewrite (first_occurrences_all theme_selector.stem [] walk Hnd') in Hperm |- *
      by (intros x _ []).
    rewrite (Permutation_map theme_selector.target_key Hperm).
    rewrite map_map. simpl. rewrite map_id. exact Hwalk.
Qed.

Lemma X15_collect_themes_witness :
  theme_selector.collect_themes Samples.bare Samples.kitty_dir = []
  /\ Permutation
       (map theme_selector.target_key
          (theme_selector.collect_themes
             (Samples.with_dir [Samples.kitty_dir ++ ["b"; "two.conf"];
                                Samples.kitty_dir ++ ["Zen.conf"]] Samples.bare)
             Samples.kitty_dir))
       [Samples.kitty_dir ++ ["b"; "two.conf"]; Samples.kitty_dir ++ ["Zen.conf"]].
Proof.
  split.
  - apply (proj1 (X15_collect_themes_entries Samples.bare Samples.kitty_dir)).
    reflexivity.
  - apply (proj2 (proj2 (proj2
      (X15_collect_themes_entries
         (Samples.with_dir [Samples.kitty_dir ++ ["b"; "two.conf"];
                            Samples.kitty_dir ++ ["Zen.conf"]] Samples.bare)
         Samples.kitty_dir)))); [reflexivity|].
    vm_compute. constructor; [|constructor; [|constructor]].
    + intros [H | []]. discriminate H.
    + intros [].
Defined.

(* ================================================================== *)
(** * Further properties: normalising the query *)
(* ================================================================== *)

Lemma isspace_lower_char (c : ascii) : PyStr.isspace (PyStr.lower_char c) = PyStr.isspace c.
Proof. destruct c as [[] [] [] [] [] [] [] []]; reflexivity. Qed.

Lemma lower_char_idempotent (c : ascii) :
  PyStr.lower_char (PyStr.lower_char c) = PyStr.lower_char c.
Proof. destruct c as [[] [] [] [] [] [] [] []]; reflexivity. Qed.

Lemma lower_idempotent (s : string) : PyStr.lower (PyStr.lower s) = PyStr.lower s.
Proof.
  induction s as [|c s IH]; cbn [PyStr.lower]; [reflexivity|].
  now rewrite lower_char_idempotent, IH.
Qed.

Lemma lstrip_lower (s : string) : PyStr.lstrip (PyStr.lower s) = PyStr.lower (PyStr.lstrip s).
Proof.
  induction s as [|c s IH]; cbn [PyStr.lower PyStr.lstrip]; [reflexivity|].
  rewrite isspace_lower_char. destruct (PyStr.isspace c); [exact IH | reflexivity].
Qed.

Lemma rstrip_lower (s : string) : PyStr.rstrip (PyStr.lower s) = PyStr.lower (PyStr.rstrip s).
Proof.
  induction s as [|c s IH]; cbn [PyStr.lower PyStr.rstrip]; [reflexivity|].
  rewrite IH, isspace_lower_char.
  destruct (PyStr.rstrip s); cbn [PyStr.lower]; [|reflexivity].
  now destruct (PyStr.isspace c).
Qed.

Lemma strip_lower (s : string) : PyStr.strip (PyStr.lower s) = PyStr.lower (PyStr.strip s).
Proof. unfold PyStr.strip. now rewrite lstrip_lower, rstrip_lower. Qed.

Lemma rstrip_idempotent (s : string) : PyStr.rstrip (PyStr.rstrip s) = PyStr.rstrip s.
Proof.
  induction s as [|c s IH]; cbn [PyStr.rstrip]; [reflexivity|].
  destruct (PyStr.rstrip s) as [|d r] eqn:E.
  - destruct (PyStr.isspace c) eqn:Ec; [reflexivity|].
    cbn [PyStr.rstrip]. now rewrite Ec.
  - cbn [PyStr.rstrip] in *. now rewrite IH.
Qed.

Lemma rstrip_head (c : ascii) (r : string) :
  PyStr.isspace c = false -> exists r', PyStr.rstrip (String c r) = String c r'.
Proof.
  intros Ec. cbn [PyStr.rstrip]. destruct (PyStr.rstrip r); [rewrite Ec|]; eexists; reflexivity.
Qed.

Lemma strip_idempotent (s : string) : PyStr.strip (PyStr.strip s) = PyStr.strip s.
Proof.
  unfold PyStr.strip.
  destruct (lstrip_cases s) as [[_ ->] | [_ [c [r [-> Ec]]]]]; [reflexivity|].
  destruct (rstrip_head c r Ec) as [r' E].
  assert (El : PyStr.lstrip (PyStr.rstrip (String c r)) = PyStr.rstrip (String c r)).
  { rewrite E. cbn [PyStr.lstrip]. now rewrite Ec. }
  rewrite El. apply rstrip_idempotent.
Qed.

(** X16. The view depends on the query only through its stripped,
    lower-cased text: changing the case of the query, or adding white
    space around it, gives the same filtered view, for hosts and for
    themes. *)
Theorem X16_query_case_and_blanks_do_not_matter :
  (forall (v : string) (hosts : list ssh_host_selector.entry),
      ssh_host_selector.filter_hosts (PyStr.lower v) hosts
      = ssh_host_selector.filter_hosts v hosts
      /\ ssh_host_selector.filter_hosts (PyStr.strip v) hosts
         = ssh_host_selector.filter_hosts v hosts)
  /\
  (forall (v : string) (themes : list theme_selector.entry),
      theme_selector.filter_themes (PyStr.lower v) themes
      = theme_selector.filter_themes v themes
      /\ theme_selector.filter_themes (PyStr.strip v) themes
         = theme_selector.filter_themes v themes).
Proof.
  split; intros v l; split.
  - unfold ssh_host_selector.filter_hosts. now rewrite strip_lower, lower_idempotent.
  - unfold ssh_host_selector.filter_hosts. now rewrite strip_idempotent.
  - unfold theme_selector.filter_themes. now rewrite strip_lower, lower_idempotent.
  - unfold theme_selector.filter_themes. now rewrite strip_idempotent.
Qed.

(* ================================================================== *)
(** * Further properties: blocks *)
(* ================================================================== *)

Lemma emit_closed_form (user theme : option string) (hs : list string)
    (acc : list ssh_host_selector.entry) :
  ssh_host_selector.emit user theme hs acc
  = acc ++ map (fun alias => (ssh_host_selector.display_of user alias, alias, theme))
             (filter (fun alias => PyStr.nonempty alias && negb (alias =? "*")%string) hs).
Proof.
  revert acc. induction hs as [|alias hs IH]; intros acc; simpl;
    [now rewrite app_nil_r|].
  destruct (PyStr.nonempty alias && negb (alias =? "*")%string); rewrite IH;
    [|reflexivity].
  simpl. now rewrite <- app_assoc.
Qed.

Lemma close_block_closed_form (st : ssh_host_selector.locals) :
  ssh_host_selector.close_block st
  = ssh_host_selector.entries st
    ++ map (fun alias =>
              (ssh_host_selector.display_of (ssh_host_selector.current_user st) alias,
               alias, ssh_host_selector.current_theme st))
         (filter (fun alias => PyStr.nonempty alias && negb (alias =? "*")%string)
            (ssh_host_selector.current_hosts st)).
Proof.
  unfold ssh_host_selector.close_block.
  destruct (ssh_host_selector.current_hosts st) eqn:E; [simpl; now rewrite app_nil_r|].
  apply emit_closed_form.
Qed.

Lemma parse_lines_append_only (lines : list string) (st : ssh_host_selector.locals) :
  exists st' added,
    ssh_host_selector.parse_lines st lines = Ok st' /\
    ssh_host_selector.entries st' = ssh_host_selector.entries st ++ added.
Proof.
  revert st. induction lines as [|l lines IH]; intros st; simpl.
  - exists st, []. split; [reflexivity | now rewrite app_nil_r].
  - destruct (is_header l) eqn:Eh.
    + destruct (MoreParserFacts.parse_line_header st l Eh) as [hosts [-> _]]. simpl.
      destruct (IH {| ssh_host_selector.entries := ssh_host_selector.close_block st;
                      ssh_host_selector.current_hosts := hosts;
                      ssh_host_selector.current_user := None;
                      ssh_host_selector.current_theme := None |})
        as [st' [added [E Ha]]].
      exists st'. eexists. split; [exact E|].
      rewrite Ha. simpl. rewrite close_block_closed_form, <- app_assoc. reflexivity.
    + destruct (MoreParserFacts.parse_line_body st l Eh) as [st1 [-> [He _]]]. simpl.
      destruct (IH st1) as [st' [added [E Ha]]].
      exists st', added. split; [exact E|]. now rewrite Ha, He.
Qed.

(** X17. Blocks.  Closing a block appends to the collected entries, in
    the order of declaration, one entry for each identifier of the block
    other than [*], all with the block's user and theme.  Over any
    sequence of lines the collected entries only grow at the end, so the
    entries of an earlier block always stand before those of a later one
    when the duplicates are removed. *)
Theorem X17_blocks_append_in_order (st : ssh_host_selector.locals) (lines : list string) :
  ssh_host_selector.close_block st
  = ssh_host_selector.entries st
    ++ map (fun alias =>
              (ssh_host_selector.display_of (ssh_host_selector.current_user st) alias,
               alias, ssh_host_selector.current_theme st))
         (filter (fun alias => PyStr.nonempty alias && negb (alias =? "*")%string)
            (ssh_host_selector.current_hosts st))
  /\
  exists st' added,
    ssh_host_selector.parse_lines st lines = Ok st' /\
    ssh_host_selector.entries st' = ssh_host_selector.entries st ++ added.
Proof.
  split; [apply close_block_closed_form | apply parse_lines_append_only].
Qed.

(* ================================================================== *)
(** * First occurrence wins *)
(* ================================================================== *)

Module FirstWins.
Import PyStr ssh_host_selector.

Lemma splitlines_newline (t2 : string) :
  splitlines (String "010" t2) = EmptyString :: splitlines t2.
Proof. destruct t2; reflexivity. Qed.

Lemma splitlines_terminated_nonempty (t : string) :
  exists l ls, splitlines (String.append t Samples.LF) = l :: ls.
Proof.
  destruct t as [|c t]; [now exists EmptyString, []|].
  cbn [String.append splitlines].
  destruct (is_linebreak c); [eexists; eexists; reflexivity|].
  destruct (splitlines (String.append t Samples.LF)); eexists; eexists; reflexivity.
Qed.

(** A text that ends in a newline splits on its own: the lines of what
    follows are the lines of the rest. *)
Lemma splitlines_app_bounded (n : nat) :
  forall t t2 : string,
    String.length t <= n ->
    splitlines (String.append (String.append t Samples.LF) t2)
    = splitlines (String.append t Samples.LF) ++ splitlines t2.
Proof.
  induction n as [|n IH]; intros t t2 Hlen.
  - destruct t; [|simpl in Hlen; lia]. apply splitlines_newline.
  - destruct t as [|c t]; [apply splitlines_newline|].
    simpl in Hlen. cbn [String.append splitlines].
    destruct (is_linebreak c).
    + destruct t as [|d t].
      * unfold Samples.LF. cbn [String.append].
        destruct (code c =? 13); cbn -[splitlines].
        -- reflexivity.
        -- now rewrite splitlines_newline.
      * cbn [String.append].
        destruct ((code c =? 13) && (code d =? 10)).
        -- cbn [app]. f_equal. apply IH. simpl in Hlen. lia.
        -- cbn [app]. f_equal.
           apply (IH (String d t) t2). lia.
    + rewrite (IH t t2) by lia.
      destruct (splitlines_terminated_nonempty t) as [l [ls ->]]. reflexivity.
Qed.

Lemma splitlines_app (t t2 : string) :
  splitlines (String.append (String.append t Samples.LF) t2)
  = splitlines (String.append t Samples.LF) ++ splitlines t2.
Proof. apply (splitlines_app_bounded (String.length t)). lia. Qed.

Lemma parse_lines_app (l1 l2 : list string) (st : locals) :
  parse_lines st (l1 ++ l2) = (st1 <- parse_lines st l1 ;; parse_lines st1 l2).
Proof.
  revert st. induction l1 as [|l l1 IH]; intros st; simpl; [reflexivity|].
  destruct (parse_line st l); simpl; [apply IH | reflexivity].
Qed.

Lemma parse_line_header_hosts (st : locals) (raw_line : string) :
  is_header raw_line = true ->
  parse_line st raw_line
  = Ok {| entries := close_block st; current_hosts := header_hosts raw_line;
          current_user := None; current_theme := None |}.
Proof.
  unfold is_header, header_hosts, parse_line. intros ->.
  now destruct (split_maxsplit1 (strip raw_line)) as [|a [|b parts]].
Qed.

Lemma header_hosts_words (raw_line : string) : Forall word (header_hosts raw_line).
Proof.
  unfold header_hosts.
  destruct (split_maxsplit1 (strip raw_line)) as [|a [|b parts]]; try constructor.
  apply MoreParserFacts.split_words.
Qed.

(** What has been collected is still there when the loop ends. *)
Lemma entries_kept (lines : list string) (st : locals) (e : entry) :
  In e (entries st) ->
  exists st', parse_lines st lines = Ok st' /\ In e (close_block st').
Proof.
  intros He. destruct (parse_lines_append_only lines st) as [st' [added [E Ha]]].
  exists st'. split; [exact E|].
  rewrite close_block_closed_form, Ha. apply in_or_app. left.
  apply in_or_app. now left.
Qed.

Lemma open_block_closes (st : locals) (alias : string) :
  In alias (current_hosts st) -> word alias -> alias <> "*" ->
  exists e, In e (close_block st) /\ target_key e = alias.
Proof.
  intros Hin [Hne _] Hstar.
  exists (display_of (current_user st) alias, alias, current_theme st).
  split; [|reflexivity].
  rewrite close_block_closed_form. apply in_or_app. right.
  apply in_map_iff. exists alias. split; [reflexivity|].
  apply filter_In. split; [exact Hin|].
  apply andb_true_iff. split.
  - destruct alias; [contradiction | reflexivity].
  - apply negb_true_iff. now apply String.eqb_neq.
Qed.

(** An identifier of the open block is collected when the loop ends. *)
Lemma open_block_kept (lines : list string) (st : locals) (alias : string) :
  In alias (current_hosts st) -> word alias -> alias <> "*" ->
  exists st' e,
    parse_lines st lines = Ok st' /\ In e (close_block st') /\ target_key e = alias.
Proof.
  revert st. induction lines as [|l lines IH]; intros st Hin Hw Hstar.
  - destruct (open_block_closes st alias Hin Hw Hstar) as [e [He Ek]].
    exists st, e. simpl. auto.
  - simpl. destruct (is_header l) eqn:Eh.
    + rewrite (parse_line_header_hosts st l Eh). simpl.
      destruct (open_block_closes st alias Hin Hw Hstar) as [e [He Ek]].
      destruct (entries_kept lines
                  {| entries := close_block st; current_hosts := header_hosts l;
                     current_user := None; current_theme := None |} e He)
        as [st' [E He']].
      exists st', e. auto.
    + destruct (MoreParserFacts.parse_line_body st l Eh) as [st1 [-> [_ [Hh _]]]]. simpl.
      apply IH; [now rewrite Hh | assumption | assumption].
Qed.

(** Every identifier of every header line, other than [*], has its
    entry in the parsed list. *)
Lemma declared_is_parsed (text : string) :
  exists out,
    parse_text text = Ok out /\
    forall raw_line alias,
      In raw_line (splitlines text) -> is_header raw_line = true ->
      In alias (header_hosts raw_line) -> alias <> "*" ->
      exists e, In e out /\ target_key e = alias.
Proof.
  destruct (ParserFacts.parse_text_ok text) as [cs [Ecs [_ Eout]]].
  eexists. split; [exact Eout|].
  intros raw_line alias Hraw Hh Ha Hstar.
  apply in_split in Hraw. destruct Hraw as [before [after Elines]].
  assert (Hw : word alias).
  { assert (H := header_hosts_words raw_line). rewrite Forall_forall in H. now apply H. }
  unfold candidates in Ecs. rewrite Elines, parse_lines_app in Ecs.
  destruct (parse_lines_append_only before initial) as [st1 [added [E1 _]]].
  rewrite E1 in Ecs. cbn [bind parse_lines] in Ecs.
  rewrite (parse_line_header_hosts st1 raw_line Hh) in Ecs. cbn [bind] in Ecs.
  destruct (open_block_kept after
              {| entries := close_block st1; current_hosts := header_hosts raw_line;
                 current_user := None; current_theme := None |} alias Ha Hw Hstar)
    as [st' [c [E' [Hc Ek]]]].
  rewrite E' in Ecs. cbn [bind] in Ecs. injection Ecs as <-.
  destruct (first_occurrences_complete target_key [] (close_block st') c Hc)
    as [e [He Ee]]; [intros []|].
  exists e. split; [|congruence].
  apply sort_In. rewrite dedupe_first_occurrences. exact He.
Qed.

Lemma first_occurrences_app_l {A : Type} (key : A -> string) (seen : list string)
    (l1 l2 : list A) (x : A) :
  In x (PyList.first_occurrences key seen l1) ->
  In x (PyList.first_occurrences key seen (l1 ++ l2)).
Proof.
  revert seen. induction l1 as [|h l1 IH]; intros seen; simpl; [tauto|].
  destruct (PyList.mem (key h) seen); [apply IH|].
  intros [<- | H]; [now left | right; now apply IH].
Qed.

(** Blocks that follow a text ending in a newline leave its entries as
    they are. *)
Lemma later_blocks_keep_entries (t t2 header : string) (rest : list string)
    (out1 : list entry) :
  splitlines t2 = header :: rest -> is_header header = true ->
  parse_text (String.append t Samples.LF) = Ok out1 ->
  exists out,
    parse_text (String.append (String.append t Samples.LF) t2) = Ok out /\
    incl out1 out.
Proof.
  intros E2 Hh E1. unfold parse_text, candidates in *.
  rewrite splitlines_app, E2, parse_lines_app.
  destruct (parse_lines initial (splitlines (String.append t Samples.LF)))
    as [st1|e]; [|discriminate E1].
  cbn [bind parse_lines] in *. injection E1 as <-.
  rewrite (parse_line_header_hosts st1 header Hh). cbn [bind].
  destruct (parse_lines_append_only rest
              {| entries := close_block st1; current_hosts := header_hosts header;
                 current_user := None; current_theme := None |})
    as [st' [added [-> Ha]]].
  cbn [bind]. eexists. split; [reflexivity|].
  intros e He. apply sort_In in He. apply sort_In.
  rewrite dedupe_first_occurrences in *.
  rewrite close_block_closed_form, Ha. cbn [entries].
  rewrite <- app_assoc. now apply first_occurrences_app_l.
Qed.
End FirstWins.

Lemma path_leb_refl (p : Path) : theme_selector.path_leb p p = true.
Proof.
  induction p as [|a p IH]; simpl; [reflexivity|].
  now rewrite string_compare_refl.
Qed.

Lemma StronglySorted_after {A : Type} (R : A -> A -> Prop) (pre post : list A) (x : A) :
  StronglySorted R (pre ++ x :: post) -> Forall (R x) post.
Proof.
  induction pre as [|y pre IH]; simpl; intros H; apply StronglySorted_inv in H.
  - tauto.
  - apply IH. tauto.
Qed.

(** Of the reported files with one stem, the collected one comes first
    in the order of paths. *)
Lemma collect_themes_least_path (w : os) (config_dir : Path) (e : theme_selector.entry) :
  In e (theme_selector.collect_themes w config_dir) ->
  In (theme_selector.target_key e) (rglob_conf w config_dir) /\
  forall p, In p (rglob_conf w config_dir) ->
    theme_selector.stem p = theme_selector.stem (theme_selector.target_key e) ->
    theme_selector.path_leb (theme_selector.target_key e) p = true.
Proof.
  intros He.
  destruct (collect_themes_unique w config_dir) as [_ [_ [Hfirst _]]].
  destruct (Hfirst e He) as [pre [post [Ewalk Hpre]]].
  assert (Hperm : Permutation (theme_selector.sorted_paths (rglob_conf w config_dir))
                    (rglob_conf w config_dir)) by apply sort_perm.
  assert (Hsorted : StronglySorted (fun a b => theme_selector.path_leb a b = true)
                      (theme_selector.sorted_paths (rglob_conf w config_dir)))
    by apply (sort_sorted (fun p : Path => p) theme_selector.path_leb
                path_leb_total path_leb_trans).
  split.
  - apply (Permutation_in _ Hperm). rewrite Ewalk. apply in_or_app. right. now left.
  - intros p Hp Hstem.
    apply (Permutation_in _ (Permutation_sym Hperm)) in Hp.
    rewrite Ewalk in Hp, Hsorted. apply in_app_or in Hp.
    destruct Hp as [Hp | [<- | Hp]].
    + rewrite Forall_forall in Hpre. now elim (Hpre p Hp).
    + apply path_leb_refl.
    + apply StronglySorted_after in Hsorted. rewrite Forall_forall in Hsorted.
      now apply Hsorted.
Qed.

(** C5. In the full list of either picker the [target_key] values are
    pairwise distinct.  Hosts: every identifier of every [Host] line,
    other than [*], has one entry, and blocks that follow a config text
    never change or remove the entries that text already gives, so an
    alias declared again in a later block keeps the entry of its first
    declaration.  Themes: every stem found has one entry, and its file is
    the first, in the order of paths of the sorted walk, among the
    reported files with that stem. *)
Theorem C5_target_keys_unique_first_wins :
  (forall (w : os) (config_path : Path),
      parsed w config_path (fun out => NoDup (map ssh_host_selector.target_key out)))
  /\
  (forall (w : os) (config_path : Path) (text : string),
      is_file w config_path = Ok true ->
      read_text w config_path = ReadText text ->
      exists out,
        ssh_host_selector.parse_ssh_config w config_path = Ok out /\
        forall raw_line alias,
          In raw_line (PyStr.splitlines text) -> is_header raw_line = true ->
          In alias (header_hosts raw_line) -> alias <> "*" ->
          exists e, In e out /\ ssh_host_selector.target_key e = alias)
  /\
  (forall (w w' : os) (config_path : Path) (t t2 header : string) (rest : list string)
          (out1 : list ssh_host_selector.entry),
      is_file w config_path = Ok true ->
      read_text w config_path = ReadText (String.append t Samples.LF) ->
      is_file w' config_path = Ok true ->
      read_text w' config_path
        = ReadText (String.append (String.append t Samples.LF) t2) ->
      PyStr.splitlines t2 = header :: rest -> is_header header = true ->
      ssh_host_selector.parse_ssh_config w config_path = Ok out1 ->
      exists out,
        ssh_host_selector.parse_ssh_config w' config_path = Ok out /\
        incl out1 out /\
        NoDup (map ssh_host_selector.target_key out))
  /\
  (forall (w : os) (config_dir : Path),
      let found := rglob_conf w config_dir in
      let out := theme_selector.collect_themes w config_dir in
      NoDup (map theme_selector.target_key out) /\
      NoDup (map (fun e => theme_selector.stem (theme_selector.target_key e)) out) /\
      (forall e, In e out ->
         In (theme_selector.target_key e) found /\
         forall p, In p found ->
           theme_selector.stem p = theme_selector.stem (theme_selector.target_key e) ->
           theme_selector.path_leb (theme_selector.target_key e) p = true) /\
      (is_dir w config_dir = true ->
       forall p, In p found ->
         exists e, In e out /\
           theme_selector.stem (theme_selector.target_key e) = theme_selector.stem p)).
Proof.
  assert (Hnodup : forall text out, ssh_host_selector.parse_text text = Ok out ->
             NoDup (map ssh_host_selector.target_key out)).
  { intros text out E. destruct (parse_text_unique text) as [cs [out' [_ [E' [H _]]]]].
    rewrite E in E'. injection E' as <-. exact H. }
  split; [|split; [|split]].
  - intros w config_path. apply parsed_of_text; [constructor | exact Hnodup].
  - intros w config_path text Hf Hr. unfold ssh_host_selector.parse_ssh_config.
    rewrite Hf, Hr. simpl. apply FirstWins.declared_is_parsed.
  - intros w w' config_path t t2 header rest out1 Hf Hr Hf' Hr' E2 Hh.
    unfold ssh_host_selector.parse_ssh_config. rewrite Hf, Hr, Hf', Hr'. simpl.
    intros E1.
    destruct (FirstWins.later_blocks_keep_entries t t2 header rest out1 E2 Hh E1)
      as [out [E Hincl]].
    exists out. split; [exact E|]. split; [exact Hincl | now apply (Hnodup _ _ E)].
  - intros w config_dir found out. subst found out.
    destruct (collect_themes_unique w config_dir) as [H1 [H2 [_ H4]]].
    split; [exact H1|]. split; [exact H2|]. split.
    + intros e He. now apply collect_themes_least_path.
    + intros Hd p Hp. apply (H4 Hd).
      apply (Permutation_in p (Permutation_sym (sort_perm _ _ _))). exact Hp.
Qed.

Lemma C5_first_wins_witness :
  (exists out,
      ssh_host_selector.parse_ssh_config
        (Samples.with_file Samples.two_blocks Samples.bare) Samples.ssh_config = Ok out /\
      incl [("ann@web", "web", None)] out /\
      NoDup (map ssh_host_selector.target_key out))
  /\
  (exists e,
      In e (theme_selector.collect_themes
              (Samples.with_dir Samples.theme_files Samples.bare) Samples.kitty_dir)
      /\ theme_selector.stem (theme_selector.target_key e) = "one")
  /\
  theme_selector.path_leb (Samples.kitty_dir ++ ["a"; "one.conf"])
    (Samples.kitty_dir ++ ["b"; "one.conf"]) = true.
Proof.
  destruct C5_target_keys_unique_first_wins as [_ [_ [Hkeep Hthemes]]].
  split; [|split].
  - apply (Hkeep (Samples.with_file (Samples.lines ["Host web"; "  User ann"]) Samples.bare)
             (Samples.with_file Samples.two_blocks Samples.bare)
             Samples.ssh_config
             (Samples.lines ["Host web"] ++ "  User ann")%string
             (Samples.lines ["Host db web"; "  User bob"])
             "Host db web" ["  User bob"]);
      reflexivity.
  - destruct (Hthemes (Samples.with_dir Samples.theme_files Samples.bare) Samples.kitty_dir)
      as [_ [_ [_ Hall]]].
    apply (Hall eq_refl (Samples.kitty_dir ++ ["b"; "one.conf"])).
    vm_compute. tauto.
  - destruct (Hthemes (Samples.with_dir Samples.theme_files Samples.bare) Samples.kitty_dir)
      as [_ [_ [Hleast _]]].
    apply (Hleast ("a/one", Samples.kitty_dir ++ ["a"; "one.conf"])).
    + vm_compute. tauto.
    + vm_compute. tauto.
    + reflexivity.
Defined.
